(** * The statement table controller (useStatementTableController.ts)

    A shallow embedding of the React hook [useStatementTableController]:
    its state cells, its memoised values, its two effects with their
    dependency arrays, and its asynchronous functions, each split at its
    single [await] into the part that runs when the function is called and
    the part that runs when the awaited request settles.  The controller
    lives in an event loop: the calls of its functions and the settled
    requests are events; a turn is a batch of events followed by one
    render and by the effects of that render.  [step] is the turn of a
    single event, [turn] the one of any batch.

    Left out: [tableColumns], a memo over [statements] and [showFullSQL]
    that feeds no state cell, effect or request.

    Numbers: [refreshTimes] is a JavaScript number that only ever grows by
    one from zero; it is modelled as [N] (a double counts exactly up to
    2^53).  Time stamps of the API are integers, modelled as [Z]. *)

From Stdlib Require Import NArith ZArith.
From stdpp Require Import base option list strings gmap.
From Ceres Require Import Ceres.

Open Scope string_scope.
Open Scope list_scope.

(** ** Object identity

    React compares the entries of a dependency array with [Object.is]:
    objects and arrays by reference, strings and numbers by value.  A value
    whose identity the hook observes is therefore paired with a reference. *)

Inductive Ref :=
| RStatic (n : nat)   (* a module-level constant object *)
| RCaller (n : nat)   (* an object handed in by the caller of the hook *)
| RFresh (n : nat).   (* an object created while the hook runs *)

#[global] Instance Ref_eq_dec : EqDecision Ref.
Proof. solve_decision. Defined.

Record Obj (A : Type) := mkObj { oref : Ref; oval : A }.
Arguments mkObj {A} _ _.
Arguments oref {A} _.
Arguments oval {A} _.

(** ** Data of the API client *)

(** [StatementTimeRange]: both fields are optional in the client's type
    (the hook reads them with a non-null assertion). *)
Record StatementTimeRange := {
  begin_time : option Z;
  end_time : option Z
}.

(** The payload of [statementsConfigGet]. *)
Record StatementConfig := { config_enable : option bool }.

Record AxiosResponse (T : Type) := { data : T }.
Arguments data {T} _.

Record IOrderOptions := { orderBy : string; desc : bool }.

Definition DEF_ORDER_OPTIONS : IOrderOptions :=
  {| orderBy := "sum_latency"; desc := true |}.

Abbreviation IColumnKeys := (gmap string bool).

Definition DEF_STMT_COLUMN_KEYS : IColumnKeys :=
  <["digest_text" := true]> (<["sum_latency" := true]> (<["avg_latency" := true]>
  (<["exec_count" := true]> (<["plan_count" := true]>
  (<["related_schemas" := true]> ∅))))).

Definition QUERY_OPTIONS : string := "statement.query_options".

(** ** What the hook imports and this file does not define

    The types and functions below live in other modules of the dashboard
    ([TimeRangeSelector], [tableColumns], [tableColumnFactory], the API
    client) or in the browser; the hook only passes their values around. *)

Class Types := {
  TimeRange : Type;
  StatementModel : Type;
  (* whatever a rejected request throws; [errors] is an [any[]] *)
  JsError : Type
}.

Record IStatementQueryOptions `{Types} := {
  timeRange : TimeRange;
  schemas : list string;
  stmtTypes : list string;
  searchText : string
}.

Class Collaborators `{Types} := {
  DEFAULT_TIME_RANGE : TimeRange;
  calcValidStatementTimeRange :
    TimeRange -> list StatementTimeRange -> StatementTimeRange;
  (* [getSelectedFields(visibleColumnKeys, derivedFields)], with the
     module constant [derivedFields] already supplied *)
  getSelectedFields : IColumnKeys -> list string;
  (* [client.getBasePath()] *)
  getBasePath : string;
  (* the serialisation the session storage hook applies to a stored value *)
  JSON_stringify : IStatementQueryOptions -> string;
  JSON_parse : string -> option IStatementQueryOptions
}.

(** How an awaited promise settles. *)
Inductive Settled `{Types} (T : Type) :=
| Fulfilled (v : T)
| Rejected (e : JsError).
Arguments Fulfilled {_ T} _.
Arguments Rejected {_ T} _.

(** How a call of an [async] function ends. *)
Inductive Completion `{Types} (A : Type) :=
| Normal (a : A)
| Throw (e : JsError).
Arguments Normal {_ A} _.
Arguments Throw {_ A} _.

Section Controller.
Context `{C : Collaborators}.

Definition DEF_STMT_QUERY_OPTIONS : Obj IStatementQueryOptions :=
  mkObj (RStatic 0)
    {| timeRange := DEFAULT_TIME_RANGE; schemas := []; stmtTypes := [];
       searchText := "" |}.

(** ** Remote calls *)

Record DownloadRequest := {
  req_begin_time : option Z;
  req_end_time : option Z;
  req_fields : string;
  req_schemas : list string;
  req_stmt_types : list string;
  req_text : string
}.

Inductive Call :=
| statementsConfigGet
| infoListDatabases
| statementsTimeRangesGet
| statementsStmtTypesGet
| statementsListGet (beginTime endTime : option Z) (fields : string)
    (schemas stmtTypes : list string) (text : string)
| statementsDownloadTokenPost (req : DownloadRequest).

(** The value each call's promise carries.  The hook reads the response
    of the first five calls through [res?.], so it may be missing, and
    the lists through [res?.data || []], so their data may be missing
    too; it reads the token through [res.data] and tests it with
    [if (token)].  The feature flag is read through [res?.data.enable]:
    a response that is there but has no [data] is the reply
    [ConfigReplyNoData], and reading it throws; [typeError] is the error
    that the engine creates for it. *)
Inductive Reply :=
| ConfigReply (r : Settled (option (AxiosResponse StatementConfig)))
| SchemasReply (r : Settled (option (AxiosResponse (option (list string)))))
| TimeRangesReply
    (r : Settled (option (AxiosResponse (option (list StatementTimeRange)))))
| StmtTypesReply (r : Settled (option (AxiosResponse (option (list string)))))
| ListReply
    (r : Settled (option (AxiosResponse (option (list StatementModel)))))
| TokenReply (r : Settled (AxiosResponse (option string)))
| ConfigReplyNoData (typeError : JsError).

(** ** State *)

(** The arguments of the hook. [needSave] has the default [true]. *)
Record Props := {
  visibleColumnKeys : Obj IColumnKeys;
  showFullSQL : bool;
  options : option (Obj IStatementQueryOptions);
  needSave_arg : option bool
}.

Definition needSave (p : Props) : bool := default true (needSave_arg p).

(** The [useState] cells.  [orderOptions] stands for the cell inside
    [useOrderState]. *)
Record HookState := {
  orderOptions : IOrderOptions;
  memoryQueryOptions : Obj IStatementQueryOptions;
  sessionQueryOptions : Obj IStatementQueryOptions;
  enable : option bool;
  allTimeRanges : Obj (list StatementTimeRange);
  allSchemas : list string;
  allStmtTypes : list string;
  loadingStatements : bool;
  statements : list StatementModel;
  refreshTimes : N;
  errors : list JsError;
  downloading : bool
}.

(** The [useMemo] cells that feed an effect, and what each [useEffect]
    saw at its last run ([None] before the first one). *)
Record Memos := {
  validTimeRange : Obj StatementTimeRange;
  validTimeRange_deps : Ref * Ref;
  selectedFields : string;
  selectedFields_deps : Ref;
  metadataEffect_deps : option N;
  listEffect_deps : option (Ref * Ref * Ref * string)
}.

Record World := {
  props : Props;
  hook : HookState;
  memo : Memos;
  (* the browser *)
  sessionStorage : gmap string string;
  navigations : list string;   (* every URL assigned to window.location.href *)
  (* the event loop: requests not yet settled, every request ever issued,
     and how each promise returned by [downloadCSV] settled *)
  inflight : gmap nat Call;
  nextId : nat;
  issued : list Call;
  downloadResults : list (Completion unit);
  (* allocation of object identities *)
  nextRef : nat
}.


(** ** Writing one field *)

Definition with_hook (f : HookState -> HookState) (w : World) : World :=
  {| props := props w; hook := f (hook w); memo := memo w;
     sessionStorage := sessionStorage w; navigations := navigations w;
     inflight := inflight w; nextId := nextId w; issued := issued w;
     downloadResults := downloadResults w; nextRef := nextRef w |}.

Definition with_memo (f : Memos -> Memos) (w : World) : World :=
  {| props := props w; hook := hook w; memo := f (memo w);
     sessionStorage := sessionStorage w; navigations := navigations w;
     inflight := inflight w; nextId := nextId w; issued := issued w;
     downloadResults := downloadResults w; nextRef := nextRef w |}.

Definition with_props (p : Props) (w : World) : World :=
  {| props := p; hook := hook w; memo := memo w;
     sessionStorage := sessionStorage w; navigations := navigations w;
     inflight := inflight w; nextId := nextId w; issued := issued w;
     downloadResults := downloadResults w; nextRef := nextRef w |}.

Definition with_sessionStorage (f : gmap string string -> gmap string string)
    (w : World) : World :=
  {| props := props w; hook := hook w; memo := memo w;
     sessionStorage := f (sessionStorage w); navigations := navigations w;
     inflight := inflight w; nextId := nextId w; issued := issued w;
     downloadResults := downloadResults w; nextRef := nextRef w |}.

Definition with_navigations (f : list string -> list string) (w : World)
    : World :=
  {| props := props w; hook := hook w; memo := memo w;
     sessionStorage := sessionStorage w; navigations := f (navigations w);
     inflight := inflight w; nextId := nextId w; issued := issued w;
     downloadResults := downloadResults w; nextRef := nextRef w |}.

Definition with_inflight (f : gmap nat Call -> gmap nat Call) (w : World)
    : World :=
  {| props := props w; hook := hook w; memo := memo w;
     sessionStorage := sessionStorage w; navigations := navigations w;
     inflight := f (inflight w); nextId := nextId w; issued := issued w;
     downloadResults := downloadResults w; nextRef := nextRef w |}.

Definition with_downloadResults
    (f : list (Completion unit) -> list (Completion unit)) (w : World)
    : World :=
  {| props := props w; hook := hook w; memo := memo w;
     sessionStorage := sessionStorage w; navigations := navigations w;
     inflight := inflight w; nextId := nextId w; issued := issued w;
     downloadResults := f (downloadResults w); nextRef := nextRef w |}.

Definition hook_orderOptions (v : IOrderOptions) (h : HookState) :=
  {| orderOptions := v; memoryQueryOptions := memoryQueryOptions h;
     sessionQueryOptions := sessionQueryOptions h; enable := enable h;
     allTimeRanges := allTimeRanges h; allSchemas := allSchemas h;
     allStmtTypes := allStmtTypes h;
     loadingStatements := loadingStatements h; statements := statements h;
     refreshTimes := refreshTimes h; errors := errors h;
     downloading := downloading h |}.

Definition hook_memoryQueryOptions (v : Obj IStatementQueryOptions)
    (h : HookState) :=
  {| orderOptions := orderOptions h; memoryQueryOptions := v;
     sessionQueryOptions := sessionQueryOptions h; enable := enable h;
     allTimeRanges := allTimeRanges h; allSchemas := allSchemas h;
     allStmtTypes := allStmtTypes h;
     loadingStatements := loadingStatements h; statements := statements h;
     refreshTimes := refreshTimes h; errors := errors h;
     downloading := downloading h |}.

Definition hook_sessionQueryOptions (v : Obj IStatementQueryOptions)
    (h : HookState) :=
  {| orderOptions := orderOptions h;
     memoryQueryOptions := memoryQueryOptions h;
     sessionQueryOptions := v; enable := enable h;
     allTimeRanges := allTimeRanges h; allSchemas := allSchemas h;
     allStmtTypes := allStmtTypes h;
     loadingStatements := loadingStatements h; statements := statements h;
     refreshTimes := refreshTimes h; errors := errors h;
     downloading := downloading h |}.

Definition hook_enable (v : option bool) (h : HookState) :=
  {| orderOptions := orderOptions h;
     memoryQueryOptions := memoryQueryOptions h;
     sessionQueryOptions := sessionQueryOptions h; enable := v;
     allTimeRanges := allTimeRanges h; allSchemas := allSchemas h;
     allStmtTypes := allStmtTypes h;
     loadingStatements := loadingStatements h; statements := statements h;
     refreshTimes := refreshTimes h; errors := errors h;
     downloading := downloading h |}.

Definition hook_allTimeRanges (v : Obj (list StatementTimeRange))
    (h : HookState) :=
  {| orderOptions := orderOptions h;
     memoryQueryOptions := memoryQueryOptions h;
     sessionQueryOptions := sessionQueryOptions h; enable := enable h;
     allTimeRanges := v; allSchemas := allSchemas h;
     allStmtTypes := allStmtTypes h;
     loadingStatements := loadingStatements h; statements := statements h;
     refreshTimes := refreshTimes h; errors := errors h;
     downloading := downloading h |}.

Definition hook_allSchemas (v : list string) (h : HookState) :=
  {| orderOptions := orderOptions h;
     memoryQueryOptions := memoryQueryOptions h;
     sessionQueryOptions := sessionQueryOptions h; enable := enable h;
     allTimeRanges := allTimeRanges h; allSchemas := v;
     allStmtTypes := allStmtTypes h;
     loadingStatements := loadingStatements h; statements := statements h;
     refreshTimes := refreshTimes h; errors := errors h;
     downloading := downloading h |}.

Definition hook_allStmtTypes (v : list string) (h : HookState) :=
  {| orderOptions := orderOptions h;
     memoryQueryOptions := memoryQueryOptions h;
     sessionQueryOptions := sessionQueryOptions h; enable := enable h;
     allTimeRanges := allTimeRanges h; allSchemas := allSchemas h;
     allStmtTypes := v;
     loadingStatements := loadingStatements h; statements := statements h;
     refreshTimes := refreshTimes h; errors := errors h;
     downloading := downloading h |}.

Definition hook_loadingStatements (v : bool) (h : HookState) :=
  {| orderOptions := orderOptions h;
     memoryQueryOptions := memoryQueryOptions h;
     sessionQueryOptions := sessionQueryOptions h; enable := enable h;
     allTimeRanges := allTimeRanges h; allSchemas := allSchemas h;
     allStmtTypes := allStmtTypes h;
     loadingStatements := v; statements := statements h;
     refreshTimes := refreshTimes h; errors := errors h;
     downloading := downloading h |}.

Definition hook_statements (v : list StatementModel) (h : HookState) :=
  {| orderOptions := orderOptions h;
     memoryQueryOptions := memoryQueryOptions h;
     sessionQueryOptions := sessionQueryOptions h; enable := enable h;
     allTimeRanges := allTimeRanges h; allSchemas := allSchemas h;
     allStmtTypes := allStmtTypes h;
     loadingStatements := loadingStatements h; statements := v;
     refreshTimes := refreshTimes h; errors := errors h;
     downloading := downloading h |}.

Definition hook_refreshTimes (f : N -> N) (h : HookState) :=
  {| orderOptions := orderOptions h;
     memoryQueryOptions := memoryQueryOptions h;
     sessionQueryOptions := sessionQueryOptions h; enable := enable h;
     allTimeRanges := allTimeRanges h; allSchemas := allSchemas h;
     allStmtTypes := allStmtTypes h;
     loadingStatements := loadingStatements h; statements := statements h;
     refreshTimes := f (refreshTimes h); errors := errors h;
     downloading := downloading h |}.

Definition hook_errors (f : list JsError -> list JsError) (h : HookState) :=
  {| orderOptions := orderOptions h;
     memoryQueryOptions := memoryQueryOptions h;
     sessionQueryOptions := sessionQueryOptions h; enable := enable h;
     allTimeRanges := allTimeRanges h; allSchemas := allSchemas h;
     allStmtTypes := allStmtTypes h;
     loadingStatements := loadingStatements h; statements := statements h;
     refreshTimes := refreshTimes h; errors := f (errors h);
     downloading := downloading h |}.

Definition hook_downloading (v : bool) (h : HookState) :=
  {| orderOptions := orderOptions h;
     memoryQueryOptions := memoryQueryOptions h;
     sessionQueryOptions := sessionQueryOptions h; enable := enable h;
     allTimeRanges := allTimeRanges h; allSchemas := allSchemas h;
     allStmtTypes := allStmtTypes h;
     loadingStatements := loadingStatements h; statements := statements h;
     refreshTimes := refreshTimes h; errors := errors h;
     downloading := v |}.

(** ** Code that reads and writes the world, and may throw *)

Definition M (A : Type) : Type := World -> Completion A * World.

Definition ret {A} (a : A) : M A := fun w => (Normal a, w).

Definition bind {A B} (m : M A) (k : A -> M B) : M B :=
  fun w =>
    match m w with
    | (Normal a, w') => k a w'
    | (Throw e, w') => (Throw e, w')
    end.

Definition throw {A} (e : JsError) : M A := fun w => (Throw e, w).

(** [try { m } catch (e) { h e }] *)
Definition try_catch {A} (m : M A) (h : JsError -> M A) : M A :=
  fun w =>
    match m w with
    | (Normal a, w') => (Normal a, w')
    | (Throw e, w') => h e w'
    end.

(** [try { m } finally { f }]: [f] runs either way; the completion of [m]
    stands unless [f] throws itself. *)
Definition try_finally {A} (m : M A) (f : M unit) : M A :=
  fun w =>
    let '(r, w') := m w in
    match f w' with
    | (Normal _, w'') => (r, w'')
    | (Throw e, w'') => (Throw e, w'')
    end.

Definition get : M World := fun w => (Normal w, w).
Definition modify (f : World -> World) : M unit := fun w => (Normal tt, f w).

Definition exec {A} (m : M A) (w : World) : World := snd (m w).

Notation "'let*' x ':=' m 'in' k" := (bind m (fun x => k))
  (at level 10, x name, m at level 200, k at level 200).
Notation "m1 >> m2" := (bind m1 (fun _ => m2))
  (at level 65, right associativity).

(** [await p], resumed once [p] has settled as [r]. *)
Definition awaited {T} (r : Settled T) : M T :=
  match r with
  | Fulfilled v => ret v
  | Rejected e => throw e
  end.

(** Sending a request: it is logged and stays in flight until it settles. *)
Definition request (c : Call) : M unit :=
  modify (fun w =>
    {| props := props w; hook := hook w; memo := memo w;
       sessionStorage := sessionStorage w; navigations := navigations w;
       inflight := <[nextId w := c]> (inflight w); nextId := S (nextId w);
       issued := issued w ++ [c];
       downloadResults := downloadResults w; nextRef := nextRef w |}).

(** A newly created object or array. *)
Definition fresh {A} (v : A) : M (Obj A) :=
  fun w =>
    (Normal (mkObj (RFresh (nextRef w)) v),
     {| props := props w; hook := hook w; memo := memo w;
        sessionStorage := sessionStorage w;
        navigations := navigations w;
        inflight := inflight w; nextId := nextId w; issued := issued w;
        downloadResults := downloadResults w; nextRef := S (nextRef w) |}).

(** The state setters. *)
Definition setMemoryQueryOptions v : M unit :=
  modify (with_hook (hook_memoryQueryOptions v)).
Definition setEnable v : M unit := modify (with_hook (hook_enable v)).
Definition setAllTimeRanges v : M unit :=
  modify (with_hook (hook_allTimeRanges v)).
Definition setAllSchemas v : M unit := modify (with_hook (hook_allSchemas v)).
Definition setAllStmtTypes v : M unit :=
  modify (with_hook (hook_allStmtTypes v)).
Definition setLoadingStatements v : M unit :=
  modify (with_hook (hook_loadingStatements v)).
Definition setStatements v : M unit :=
  modify (with_hook (hook_statements v)).
Definition setRefreshTimes f : M unit :=
  modify (with_hook (hook_refreshTimes f)).
Definition setErrors f : M unit := modify (with_hook (hook_errors f)).
Definition setDownloading v : M unit :=
  modify (with_hook (hook_downloading v)).

(** Modelled from the spec: the updater returned by the session storage
    hook [useSessionStorageState] of [@umijs/hooks], which is not part of
    this file.  The spec: the key maps to a serialized [QueryOptions]
    value, overwritten on every [setQueryOptions] call when session
    persistence is enabled. *)
Definition setSessionQueryOptions (v : Obj IStatementQueryOptions) : M unit :=
  modify (with_sessionStorage
            (fun st => <[QUERY_OPTIONS := JSON_stringify (oval v)]> st)) >>
  modify (with_hook (hook_sessionQueryOptions v)).

(** Modelled from the spec: the value the session storage hook starts
    with; the spec: initialized from that store, or from a caller-supplied
    default if absent.  A stored text that does not parse counts as
    absent.  A parsed value is a new object. *)
Definition getStoredValue (storage : gmap string string) (nextRef : nat)
    (defaultValue : Obj IStatementQueryOptions)
    : Obj IStatementQueryOptions * nat :=
  match storage !! QUERY_OPTIONS ≫= JSON_parse with
  | Some v => (mkObj (RFresh nextRef) v, S nextRef)
  | None => (defaultValue, nextRef)
  end.

(** Modelled from the spec: [changeOrder] of [useOrderState], which is
    not part of this file; it holds the sort column and direction.  The
    spec calls the order state optionally persisted and line 83 passes
    [needSave] on; where and how [useOrderState] stores it is not known
    here, so only the state cell is modelled, and what is proved about
    the session storage leaves [changeOrder] out. *)
Definition changeOrder (orderBy : string) (desc : bool) : M unit :=
  modify (with_hook
            (hook_orderOptions {| orderBy := orderBy; desc := desc |})).

(** ** The hook body *)

(** Lines 94-97: the memo returns one of the two state objects itself. *)
Definition queryOptions (w : World) : Obj IStatementQueryOptions :=
  if needSave (props w) then sessionQueryOptions (hook w)
  else memoryQueryOptions (hook w).

(** Lines 114-120. *)
Definition setQueryOptions (newOptions : Obj IStatementQueryOptions)
    : M unit :=
  let* w := get in
  if needSave (props w) then setSessionQueryOptions newOptions
  else setMemoryQueryOptions newOptions.

(** Lines 124-127. *)
Definition refresh : M unit :=
  setErrors (fun _ => []) >>
  setRefreshTimes (fun prev => (prev + 1)%N).

(** [res?.data || []] *)
Definition data_or_empty {A}
    (res : option (AxiosResponse (option (list A)))) : list A :=
  default [] (res ≫= data).

(** Lines 130-139. *)
Definition queryStatementStatus : M unit := request statementsConfigGet.

Definition queryStatementStatus_resume
    (r : Settled (option (AxiosResponse StatementConfig))) : M unit :=
  try_catch
    (let* res := awaited r in
     setEnable (res ≫= fun x => config_enable (data x)))
    (fun e => setErrors (fun prev => prev ++ [e])).

(** Lines 132-138 when the response has no [data]: line 135 reads a
    property of [undefined] and throws inside the [try], so the [catch]
    of line 137 appends what was thrown. *)
Definition queryStatementStatus_resume_no_data (typeError : JsError)
    : M unit :=
  try_catch
    (throw typeError)
    (fun e => setErrors (fun prev => prev ++ [e])).

(** Lines 141-150. *)
Definition querySchemas : M unit := request infoListDatabases.

Definition querySchemas_resume
    (r : Settled (option (AxiosResponse (option (list string))))) : M unit :=
  try_catch
    (let* res := awaited r in
     setAllSchemas (data_or_empty res))
    (fun e => setErrors (fun prev => prev ++ [e])).

(** Lines 152-161.  The array of a response, like the literal [[]], is a
    new object. *)
Definition queryTimeRanges : M unit := request statementsTimeRangesGet.

Definition queryTimeRanges_resume
    (r : Settled (option (AxiosResponse (option (list StatementTimeRange)))))
    : M unit :=
  try_catch
    (let* res := awaited r in
     let* arr := fresh (data_or_empty res) in
     setAllTimeRanges arr)
    (fun e => setErrors (fun prev => prev ++ [e])).

(** Lines 163-172. *)
Definition queryStmtTypes : M unit := request statementsStmtTypesGet.

Definition queryStmtTypes_resume
    (r : Settled (option (AxiosResponse (option (list string))))) : M unit :=
  try_catch
    (let* res := awaited r in
     setAllStmtTypes (data_or_empty res))
    (fun e => setErrors (fun prev => prev ++ [e])).

(** Lines 174-177: the body of the first effect. *)
Definition metadataEffect : M unit :=
  queryStatementStatus >> querySchemas >> queryTimeRanges >> queryStmtTypes.

(** Lines 191-219, up to the [await] or the early [return]. *)
Definition queryStatementList : M unit :=
  let* w := get in
  if (length (oval (allTimeRanges (hook w))) =? 0)%nat then
    setStatements [] >>
    setLoadingStatements false
  else
    setLoadingStatements true >>
    request (statementsListGet
               (begin_time (oval (validTimeRange (memo w))))
               (end_time (oval (validTimeRange (memo w))))
               (selectedFields (memo w))
               (schemas (oval (queryOptions w)))
               (stmtTypes (oval (queryOptions w)))
               (searchText (oval (queryOptions w)))).

(** Lines 199-219, from the [await] on. *)
Definition queryStatementList_resume
    (r : Settled (option (AxiosResponse (option (list StatementModel)))))
    : M unit :=
  try_catch
    (let* res := awaited r in
     setStatements (data_or_empty res) >>
     setErrors (fun _ => []))
    (fun e => setErrors (fun prev => prev ++ [e])) >>
  setLoadingStatements false.

(** [if (token)]: an absent token and the empty string are falsy. *)
Definition truthy (token : option string) : bool :=
  match token with
  | Some s => negb (String.eqb s "")
  | None => false
  end.

(** [window.location.href = url] *)
Definition set_location_href (url : string) : M unit :=
  modify (with_navigations (fun l => l ++ [url])).

(** Lines 226-236, up to the [await]. *)
Definition downloadCSV : M unit :=
  let* w := get in
  setDownloading true >>
  request (statementsDownloadTokenPost
             {| req_begin_time := begin_time (oval (validTimeRange (memo w)));
                req_end_time := end_time (oval (validTimeRange (memo w)));
                req_fields := "*";
                req_schemas := schemas (oval (queryOptions w));
                req_stmt_types := stmtTypes (oval (queryOptions w));
                req_text := searchText (oval (queryOptions w)) |}).

(** Lines 229-244, from the [await] on: what is left of the [try] block,
    then the [finally] block.  The completion is the one of the promise
    that [downloadCSV] returned to its caller. *)
Definition downloadCSV_resume (r : Settled (AxiosResponse (option string)))
    : M unit :=
  try_finally
    (let* res := awaited r in
     let token := data res in
     if truthy token then
       set_location_href
         (getBasePath +:+ "/statements/download?token=" +:+ default "" token)
     else ret tt)
    (setDownloading false).

(** ** Rendering and effects *)

Definition memo_validTimeRange (v : Obj StatementTimeRange) (d : Ref * Ref)
    (m : Memos) : Memos :=
  {| validTimeRange := v; validTimeRange_deps := d;
     selectedFields := selectedFields m;
     selectedFields_deps := selectedFields_deps m;
     metadataEffect_deps := metadataEffect_deps m;
     listEffect_deps := listEffect_deps m |}.

Definition memo_selectedFields (v : string) (d : Ref) (m : Memos) : Memos :=
  {| validTimeRange := validTimeRange m;
     validTimeRange_deps := validTimeRange_deps m;
     selectedFields := v; selectedFields_deps := d;
     metadataEffect_deps := metadataEffect_deps m;
     listEffect_deps := listEffect_deps m |}.

Definition memo_metadataEffect_deps (d : option N) (m : Memos) : Memos :=
  {| validTimeRange := validTimeRange m;
     validTimeRange_deps := validTimeRange_deps m;
     selectedFields := selectedFields m;
     selectedFields_deps := selectedFields_deps m;
     metadataEffect_deps := d;
     listEffect_deps := listEffect_deps m |}.

Definition memo_listEffect_deps (d : option (Ref * Ref * Ref * string))
    (m : Memos) : Memos :=
  {| validTimeRange := validTimeRange m;
     validTimeRange_deps := validTimeRange_deps m;
     selectedFields := selectedFields m;
     selectedFields_deps := selectedFields_deps m;
     metadataEffect_deps := metadataEffect_deps m;
     listEffect_deps := d |}.

(** Lines 104-107: [validTimeRange], recomputed when [queryOptions] or
    [allTimeRanges] is another object than at the last computation. *)
Definition compute_validTimeRange (w : World) : StatementTimeRange :=
  calcValidStatementTimeRange (timeRange (oval (queryOptions w)))
    (oval (allTimeRanges (hook w))).

Definition validTimeRange_now (w : World) : Ref * Ref :=
  (oref (queryOptions w), oref (allTimeRanges (hook w))).

(** Lines 180-183: [selectedFields], recomputed when [visibleColumnKeys]
    is another object. *)
Definition compute_selectedFields (w : World) : string :=
  String.concat "," (getSelectedFields (oval (visibleColumnKeys (props w)))).

(** One pass over the hook body after the state or the arguments changed:
    the memo cells are brought up to date. *)
Definition render : M unit :=
  let* w := get in
  (if decide (validTimeRange_deps (memo w) = validTimeRange_now w) then ret tt
   else
     let* v := fresh (compute_validTimeRange w) in
     modify (with_memo (memo_validTimeRange v (validTimeRange_now w)))) >>
  let* w := get in
  if decide (selectedFields_deps (memo w) = oref (visibleColumnKeys (props w)))
  then ret tt
  else
    modify (with_memo
              (memo_selectedFields (compute_selectedFields w)
                 (oref (visibleColumnKeys (props w))))).

(** The dependency arrays: line 178, [[refreshTimes]], and line 222,
    [[queryOptions, allTimeRanges, validTimeRange, selectedFields]]. *)
Definition metadataEffect_now (w : World) : N := refreshTimes (hook w).

Definition listEffect_now (w : World) : Ref * Ref * Ref * string :=
  (oref (queryOptions w), oref (allTimeRanges (hook w)),
   oref (validTimeRange (memo w)), selectedFields (memo w)).

(** After a render React runs, in the order of their declaration, the
    effects one of whose dependencies changed since their last run (all of
    them after the first render).  What the effects write themselves
    ([statements], [loadingStatements]) is no dependency of a memo or an
    effect, so the render that follows changes nothing. *)
Definition run_effects : M unit :=
  let* w := get in
  (if decide (metadataEffect_deps (memo w) = Some (metadataEffect_now w))
   then ret tt
   else
     modify (with_memo
               (memo_metadataEffect_deps (Some (metadataEffect_now w)))) >>
     metadataEffect) >>
  let* w := get in
  if decide (listEffect_deps (memo w) = Some (listEffect_now w)) then ret tt
  else
    modify (with_memo (memo_listEffect_deps (Some (listEffect_now w)))) >>
    queryStatementList.

(** The first render, lines 81-112 and 122, and the effects after it.
    [storage] is the browser's session storage at that moment. *)
Definition useStatementTableController (p : Props)
    (storage : gmap string string) : World :=
  let init := default DEF_STMT_QUERY_OPTIONS (options p) in
  let '(session, n) := getStoredValue storage 0 init in
  let ranges := mkObj (RFresh n) [] in
  let first :=
    {| props := p;
       hook :=
         {| orderOptions := DEF_ORDER_OPTIONS;
            memoryQueryOptions := init;
            sessionQueryOptions := session;
            enable := Some true;
            allTimeRanges := ranges;
            allSchemas := [];
            allStmtTypes := [];
            loadingStatements := true;
            statements := [];
            refreshTimes := 0%N;
            errors := [];
            downloading := false |};
       memo :=
         {| validTimeRange :=
              mkObj (RFresh (S n))
                (calcValidStatementTimeRange
                   (timeRange (oval (if needSave p then session else init)))
                   []);
            validTimeRange_deps :=
              (oref (if needSave p then session else init), RFresh n);
            selectedFields :=
              String.concat "," (getSelectedFields (oval (visibleColumnKeys p)));
            selectedFields_deps := oref (visibleColumnKeys p);
            metadataEffect_deps := None;
            listEffect_deps := None |};
       sessionStorage := storage;
       navigations := [];
       inflight := ∅;
       nextId := 0;
       issued := [];
       downloadResults := [];
       nextRef := S (S n) |} in
  exec run_effects first.

(** ** Events *)

Inductive Event :=
| CallSetQueryOptions (newOptions : Obj IStatementQueryOptions)
| CallChangeOrder (orderBy : string) (desc : bool)
| CallRefresh
| CallDownloadCSV
| Rerender (p : Props)
| Settle (id : nat) (reply : Reply).

(** The promise a call of [downloadCSV] returned settles with the
    completion of the rest of its body. *)
Definition settles_promise (m : M unit) : M unit :=
  fun w =>
    let '(c, w') := m w in
    (Normal tt, with_downloadResults (fun l => l ++ [c]) w').

(** A request settles: the function that awaits it goes on.  A reply to
    a request that is not in flight, or of another call, cannot occur. *)
Definition settle (id : nat) (reply : Reply) : M unit :=
  let* w := get in
  match inflight w !! id, reply with
  | Some statementsConfigGet, ConfigReply r =>
      modify (with_inflight (delete id)) >> queryStatementStatus_resume r
  | Some statementsConfigGet, ConfigReplyNoData typeError =>
      modify (with_inflight (delete id)) >>
      queryStatementStatus_resume_no_data typeError
  | Some infoListDatabases, SchemasReply r =>
      modify (with_inflight (delete id)) >> querySchemas_resume r
  | Some statementsTimeRangesGet, TimeRangesReply r =>
      modify (with_inflight (delete id)) >> queryTimeRanges_resume r
  | Some statementsStmtTypesGet, StmtTypesReply r =>
      modify (with_inflight (delete id)) >> queryStmtTypes_resume r
  | Some (statementsListGet _ _ _ _ _ _), ListReply r =>
      modify (with_inflight (delete id)) >> queryStatementList_resume r
  | Some (statementsDownloadTokenPost _), TokenReply r =>
      modify (with_inflight (delete id)) >>
      settles_promise (downloadCSV_resume r)
  | _, _ => ret tt
  end.

Definition handle (ev : Event) : M unit :=
  match ev with
  | CallSetQueryOptions newOptions => setQueryOptions newOptions
  | CallChangeOrder orderBy desc => changeOrder orderBy desc
  | CallRefresh => refresh
  | CallDownloadCSV => downloadCSV
  | Rerender p => modify (with_props p)
  | Settle id reply => settle id reply
  end.

(** One turn of the event loop: the handler, then the render it causes
    and the effects of that render. *)
Definition step (w : World) (ev : Event) : World :=
  exec (handle ev >> render >> run_effects) w.

Definition run (w : World) (evs : list Event) : World :=
  foldl step w evs.

(** ** Several calls before one render

    React applies the state updates that were queued since the last
    render together, in the order of the calls, and renders once.  The
    functions called meanwhile are the closures of the last render, of
    world [c]: [setQueryOptions] reads its [needSave], and [downloadCSV]
    its [validTimeRange] and [queryOptions], also when an earlier call of
    the same turn has queued an update. *)

(** Lines 114-120, as the closure of the render of [c]. *)
Definition setQueryOptions_of (c : World)
    (newOptions : Obj IStatementQueryOptions) : M unit :=
  if needSave (props c) then setSessionQueryOptions newOptions
  else setMemoryQueryOptions newOptions.

(** Lines 226-236, as the closure of the render of [c]. *)
Definition downloadCSV_of (c : World) : M unit :=
  setDownloading true >>
  request (statementsDownloadTokenPost
             {| req_begin_time := begin_time (oval (validTimeRange (memo c)));
                req_end_time := end_time (oval (validTimeRange (memo c)));
                req_fields := "*";
                req_schemas := schemas (oval (queryOptions c));
                req_stmt_types := stmtTypes (oval (queryOptions c));
                req_text := searchText (oval (queryOptions c)) |}).

Definition handle_of (c : World) (ev : Event) : M unit :=
  match ev with
  | CallSetQueryOptions newOptions => setQueryOptions_of c newOptions
  | CallDownloadCSV => downloadCSV_of c
  | _ => handle ev
  end.

Fixpoint handle_all (c : World) (evs : list Event) : M unit :=
  match evs with
  | [] => ret tt
  | ev :: evs' => handle_of c ev >> handle_all c evs'
  end.

(** One render after a batch of events: their handlers in order, then
    the render and its effects.  [step] is the turn of a single event. *)
Definition turn (w : World) (evs : list Event) : World :=
  exec (handle_all w evs >> render >> run_effects) w.

Definition run_turns (w : World) (batches : list (list Event)) : World :=
  foldl turn w batches.

(** ** Vocabulary of the properties *)

(** The memo cells and the recorded dependencies are up to date: the
    state of the hook between two turns of the event loop. *)
Definition settled_render (w : World) : Prop :=
  validTimeRange_deps (memo w) = validTimeRange_now w /\
  selectedFields_deps (memo w) = oref (visibleColumnKeys (props w)) /\
  metadataEffect_deps (memo w) = Some (metadataEffect_now w) /\
  listEffect_deps (memo w) = Some (listEffect_now w).

(** The worlds the controller can be in: after its construction, and after
    any further turn of the event loop. *)
Inductive reachable : World -> Prop :=
| reachable_mount (p : Props) (storage : gmap string string) :
    reachable (useStatementTableController p storage)
| reachable_step (w : World) (ev : Event) :
    reachable w -> reachable (step w ev).

(** The calls of the first effect, in the order of lines 174-177. *)
Definition metadata_calls : list Call :=
  [statementsConfigGet; infoListDatabases; statementsTimeRangesGet;
   statementsStmtTypesGet].

Definition is_metadata_call (c : Call) : bool :=
  match c with
  | statementsConfigGet | infoListDatabases | statementsTimeRangesGet
  | statementsStmtTypesGet => true
  | _ => false
  end.

Definition is_refresh (ev : Event) : bool :=
  match ev with
  | CallRefresh => true
  | _ => false
  end.

(** The four metadata sources, the call of each and a failed reply to it. *)
Inductive Metadata := MEnable | MSchemas | MTimeRanges | MStmtTypes.

Definition metadata_call (k : Metadata) : Call :=
  match k with
  | MEnable => statementsConfigGet
  | MSchemas => infoListDatabases
  | MTimeRanges => statementsTimeRangesGet
  | MStmtTypes => statementsStmtTypesGet
  end.

Definition metadata_rejected (k : Metadata) (e : JsError) : Reply :=
  match k with
  | MEnable => ConfigReply (Rejected e)
  | MSchemas => SchemasReply (Rejected e)
  | MTimeRanges => TimeRangesReply (Rejected e)
  | MStmtTypes => StmtTypesReply (Rejected e)
  end.

Definition metadata_fields (w : World)
    : option bool * list string * Obj (list StatementTimeRange) * list string :=
  (enable (hook w), allSchemas (hook w), allTimeRanges (hook w),
   allStmtTypes (hook w)).

Definition is_list_call (c : Call) : bool :=
  match c with
  | statementsListGet _ _ _ _ _ _ => true
  | _ => false
  end.

(** The request of lines 200-212, with the values a render in world [w]
    closes over. *)
Definition list_request (w : World) : Call :=
  statementsListGet
    (begin_time (oval (validTimeRange (memo w))))
    (end_time (oval (validTimeRange (memo w))))
    (selectedFields (memo w))
    (schemas (oval (queryOptions w)))
    (stmtTypes (oval (queryOptions w)))
    (searchText (oval (queryOptions w))).

(** The array in [allTimeRanges] was created before the next array will
    be: a new array is another object. *)
Definition older_time_ranges (w : World) : Prop :=
  forall k, oref (allTimeRanges (hook w)) = RFresh k -> k < nextRef w.

Definition is_token_call (c : Call) : bool :=
  match c with
  | statementsDownloadTokenPost _ => true
  | _ => false
  end.

(** Request identifiers are handed out in order: every request in flight
    has one below the next. *)
Definition inflight_below (w : World) : Prop :=
  forall id c, inflight w !! id = Some c -> id < nextId w.

(** The calls that may write the session storage: [setQueryOptions],
    and [changeOrder], whose order state is persisted by [useOrderState]
    in a way this file does not model. *)
Definition may_write_storage (ev : Event) : bool :=
  match ev with
  | CallSetQueryOptions _ | CallChangeOrder _ _ => true
  | _ => false
  end.

(** A batch of events with a call of [refresh] among them. *)
Definition has_refresh (evs : list Event) : bool := existsb is_refresh evs.

(** The events after which the statement list is never fetched again:
    every one but new query options, new arguments, and the arrival of
    the time ranges. *)
Definition never_refetches (ev : Event) : bool :=
  match ev with
  | CallRefresh | CallChangeOrder _ _ | CallDownloadCSV => true
  | Settle _ (TimeRangesReply (Fulfilled _)) => false
  | Settle _ _ => true
  | CallSetQueryOptions _ | Rerender _ => false
  end.

End Controller.

(** ** A concrete set of collaborators

    Used to run the controller on examples.  Time ranges have the two
    shapes the spec names (the last N seconds, or an explicit window);
    stored options are printed and parsed as S-expressions. *)

Module Demo.

Inductive DemoTimeRange :=
| recent (seconds : Z)
| absolute (from to : Z).

#[export] Instance types : Types :=
  {| TimeRange := DemoTimeRange; StatementModel := string;
     JsError := string |}.

#[export] Instance Serialize_TimeRange : Serialize DemoTimeRange :=
  fun t =>
    match t with
    | recent n => [Atom "recent"; to_sexp n]
    | absolute b e => [Atom "absolute"; to_sexp b; to_sexp e]
    end%sexp.

#[export] Instance Deserialize_TimeRange : Deserialize DemoTimeRange :=
  Deser.match_con "TimeRange" []
    [("recent", Deser.con1_ recent); ("absolute", Deser.con2_ absolute)].

#[export] Instance Serialize_options : Serialize IStatementQueryOptions :=
  fun q =>
    [Atom "options"; to_sexp (timeRange q); to_sexp (schemas q);
     to_sexp (stmtTypes q); to_sexp (searchText q)]%sexp.

#[export] Instance Deserialize_options : Deserialize IStatementQueryOptions :=
  Deser.match_con "options" []
    [("options",
      Deser.con4_ (fun t s k x =>
        {| timeRange := t; schemas := s; stmtTypes := k; searchText := x |}))].

(** The newest known window, cut to the requested length; an explicit
    window as it is. *)
Definition calcValid (t : DemoTimeRange) (known : list StatementTimeRange)
    : StatementTimeRange :=
  match t with
  | recent n =>
      let e := default 0%Z (last known ≫= end_time) in
      {| begin_time := Some (e - n)%Z; end_time := Some e |}
  | absolute b e => {| begin_time := Some b; end_time := Some e |}
  end.

#[export] Instance collaborators : Collaborators :=
  {| DEFAULT_TIME_RANGE := recent 1800;
     calcValidStatementTimeRange := calcValid;
     getSelectedFields := fun keys =>
       "digest" :: (map_to_list (filter (fun kv => kv.2 = true) keys)).*1;
     getBasePath := "/dashboard/api";
     JSON_stringify := to_string;
     JSON_parse := fun s =>
       match from_string s with
       | inr q => Some q
       | inl _ => None
       end |}.

Definition props0 : Props :=
  {| visibleColumnKeys := mkObj (RCaller 0) DEF_STMT_COLUMN_KEYS;
     showFullSQL := false;
     options := None;
     needSave_arg := None |}.

Definition options1 : Obj IStatementQueryOptions :=
  mkObj (RCaller 1)
    {| timeRange := absolute 0 100; schemas := ["db1"]; stmtTypes := [];
       searchText := "" |}.

Definition world0 : World := useStatementTableController props0 ∅.

(** The schema request has failed. *)
Definition world1 : World :=
  step world0 (Settle 1 (SchemasReply (Rejected "boom"))).

(** The time ranges have arrived: the first statement-list request,
    number 4, is in flight. *)
Definition world2 : World :=
  step world0
    (Settle 2
       (TimeRangesReply
          (Fulfilled
             (Some {| data := Some [{| begin_time := Some 10%Z;
                                       end_time := Some 20%Z |}] |})))).

Definition call4 : Call :=
  statementsListGet (Some (-1780)%Z) (Some 20%Z)
    "digest,sum_latency,exec_count,avg_latency,related_schemas,digest_text,plan_count"
    [] [] "".

(** New options: a second statement-list request, number 5. *)
Definition world3 : World := step world2 (CallSetQueryOptions options1).

Definition call5 : Call :=
  statementsListGet (Some 0%Z) (Some 100%Z)
    "digest,sum_latency,exec_count,avg_latency,related_schemas,digest_text,plan_count"
    ["db1"] [] "".

(** An export has been started: the token request is number 5. *)
Definition world4 : World := step world2 CallDownloadCSV.

Definition req5 : DownloadRequest :=
  {| req_begin_time := Some (-1780)%Z; req_end_time := Some 20%Z;
     req_fields := "*"; req_schemas := []; req_stmt_types := [];
     req_text := "" |}.

(** Another column object with the same columns, and one with fewer. *)
Definition props1 : Props :=
  {| visibleColumnKeys := mkObj (RCaller 2) DEF_STMT_COLUMN_KEYS;
     showFullSQL := true;
     options := None;
     needSave_arg := None |}.

Definition props2 : Props :=
  {| visibleColumnKeys := mkObj (RCaller 3) (<["digest_text" := true]> ∅);
     showFullSQL := false;
     options := None;
     needSave_arg := None |}.

(** A controller that keeps its options in memory. *)
Definition props_memory : Props :=
  {| visibleColumnKeys := mkObj (RCaller 0) DEF_STMT_COLUMN_KEYS;
     showFullSQL := false;
     options := None;
     needSave_arg := Some false |}.

Definition world_memory : World := useStatementTableController props_memory ∅.

End Demo.

(** ** Collaborators with JavaScript numbers

    The seconds of a time range are a JavaScript number, which may be
    [NaN].  As [JSON.stringify] does, the stored text has [null] in the
    place of a [NaN], and [null] is not read back as a number. *)

Module Lossy.

Inductive JsNumber :=
| Num (z : Z)
| NaN.

Inductive LossyTimeRange :=
| recent (seconds : JsNumber)
| absolute (from to : JsNumber).

#[export] Instance types : Types :=
  {| TimeRange := LossyTimeRange; StatementModel := string;
     JsError := string |}.

#[export] Instance Serialize_JsNumber : Serialize JsNumber :=
  fun n =>
    match n with
    | Num z => to_sexp z
    | NaN => Atom (Raw "null")
    end.

#[export] Instance Deserialize_JsNumber : Deserialize JsNumber :=
  fun l e =>
    match (_from_sexp l e : error + Z) with
    | inr z => inr (Num z)
    | inl err => inl err
    end.

#[export] Instance Serialize_TimeRange : Serialize LossyTimeRange :=
  fun t =>
    match t with
    | recent n => [Atom "recent"; to_sexp n]
    | absolute b e => [Atom "absolute"; to_sexp b; to_sexp e]
    end%sexp.

#[export] Instance Deserialize_TimeRange : Deserialize LossyTimeRange :=
  Deser.match_con "TimeRange" []
    [("recent", Deser.con1_ recent); ("absolute", Deser.con2_ absolute)].

#[export] Instance Serialize_options : Serialize IStatementQueryOptions :=
  fun q =>
    [Atom "options"; to_sexp (timeRange q); to_sexp (schemas q);
     to_sexp (stmtTypes q); to_sexp (searchText q)]%sexp.

#[export] Instance Deserialize_options : Deserialize IStatementQueryOptions :=
  Deser.match_con "options" []
    [("options",
      Deser.con4_ (fun t s k x =>
        {| timeRange := t; schemas := s; stmtTypes := k; searchText := x |}))].

Definition bound (n : JsNumber) : option Z :=
  match n with
  | Num z => Some z
  | NaN => None
  end.

Definition calcValid (t : LossyTimeRange) (known : list StatementTimeRange)
    : StatementTimeRange :=
  match t with
  | recent n =>
      let e := default 0%Z (last known ≫= end_time) in
      {| begin_time := (fun z => e - z)%Z <$> bound n; end_time := Some e |}
  | absolute b e => {| begin_time := bound b; end_time := bound e |}
  end.

#[export] Instance collaborators : Collaborators :=
  {| DEFAULT_TIME_RANGE := recent (Num 1800);
     calcValidStatementTimeRange := calcValid;
     getSelectedFields := fun keys =>
       "digest" :: (map_to_list (filter (fun kv => kv.2 = true) keys)).*1;
     getBasePath := "/dashboard/api";
     JSON_stringify := to_string;
     JSON_parse := fun s =>
       match from_string s with
       | inr q => Some q
       | inl _ => None
       end |}.

Definition props0 : Props :=
  {| visibleColumnKeys := mkObj (RCaller 0) DEF_STMT_COLUMN_KEYS;
     showFullSQL := false;
     options := None;
     needSave_arg := None |}.


Definition world0 : World := useStatementTableController props0 ∅.



End Lossy.

(** * Properties *)

Section Properties.
Context `{C : Collaborators}.

Ltac unfold_m :=
  unfold exec, settles_promise, try_finally, try_catch, awaited,
    setQueryOptions, setSessionQueryOptions, setMemoryQueryOptions,
    changeOrder, refresh, set_location_href,
    setEnable, setAllTimeRanges, setAllSchemas, setAllStmtTypes,
    setLoadingStatements, setStatements, setRefreshTimes, setErrors,
    setDownloading, request, fresh, bind, throw, ret, get, modify in *.

(** ** The statement list loader *)

(** C1: when the known time-range list is empty, the statement list loader
    sets [statements] to the empty list and [loadingStatements] to false
    and returns: it issues no request and appends no error. *)
Theorem queryStatementList_no_time_ranges (w : World) :
  oval (allTimeRanges (hook w)) = [] ->
  fst (queryStatementList w) = Normal tt /\
  statements (hook (exec queryStatementList w)) = [] /\
  loadingStatements (hook (exec queryStatementList w)) = false /\
  issued (exec queryStatementList w) = issued w /\
  inflight (exec queryStatementList w) = inflight w /\
  errors (hook (exec queryStatementList w)) = errors (hook w).
Proof.
  intros Hempty. unfold queryStatementList. unfold_m.
  rewrite Hempty. simpl. repeat split.
Qed.

(** C2: when the statement-list request succeeds, [statements] becomes the
    payload of the response (the empty list when the response or its data
    is missing) and the error list becomes empty; when it fails, the error
    is appended to the error list, whose earlier entries stay, and
    [statements] keeps its value. *)
Theorem queryStatementList_resume_outcome (w : World) :
  (forall res,
     let w' := exec (queryStatementList_resume (Fulfilled res)) w in
     statements (hook w') =
       match res with
       | Some {| data := Some rows |} => rows
       | _ => []
       end /\
     errors (hook w') = []) /\
  (forall e,
     let w' := exec (queryStatementList_resume (Rejected e)) w in
     errors (hook w') = errors (hook w) ++ [e] /\
     statements (hook w') = statements (hook w)).
Proof.
  split.
  - intros res. unfold queryStatementList_resume. unfold_m. simpl.
    split; [|reflexivity]. destruct res as [[[rows|]]|]; reflexivity.
  - intros e. unfold queryStatementList_resume. unfold_m. simpl.
    split; reflexivity.
Qed.

(** C7: a run of the statement-list fetch ends with [loadingStatements]
    false on each of its three paths: the early return when no time range
    is known, the success of the request, and its failure.  When a time
    range is known the call sets the flag and sends the request, which
    stays in flight until it settles; the rest of the function then runs
    to its end without throwing. *)
Theorem queryStatementList_ends_not_loading (w : World) :
  fst (queryStatementList w) = Normal tt /\
  match oval (allTimeRanges (hook w)) with
  | [] =>
      loadingStatements (hook (exec queryStatementList w)) = false /\
      inflight (exec queryStatementList w) = inflight w
  | _ :: _ =>
      loadingStatements (hook (exec queryStatementList w)) = true /\
      exists from to fields schemas stmtTypes text,
        inflight (exec queryStatementList w) =
          <[nextId w := statementsListGet from to fields schemas stmtTypes text]>
            (inflight w)
  end /\
  (forall r w',
     fst (queryStatementList_resume r w') = Normal tt /\
     loadingStatements (hook (exec (queryStatementList_resume r) w')) = false).
Proof.
  split_and!.
  - unfold queryStatementList. unfold_m.
    destruct (oval (allTimeRanges (hook w))); done.
  - unfold queryStatementList. unfold_m.
    destruct (oval (allTimeRanges (hook w))) as [|t ts]; simpl; [done|].
    split; [done|]. by eexists _, _, _, _, _, _.
  - intros [res|e] w'; unfold queryStatementList_resume; unfold_m; simpl;
      done.
Qed.

(** ** The CSV export *)

(** C8: a call of [downloadCSV] sets [downloading] and sends the token
    request; however that request settles, the rest of the function ends
    with [downloading] false, through the [finally] block, and leaves the
    shared error list as it was; when the request fails, the promise that
    [downloadCSV] returned is rejected with that very error. *)
Theorem downloadCSV_resume_cleanup (w : World) :
  (downloading (hook (exec downloadCSV w)) = true /\
   exists req,
     inflight (exec downloadCSV w) =
       <[nextId w := statementsDownloadTokenPost req]> (inflight w)) /\
  (forall r w',
     downloading (hook (exec (downloadCSV_resume r) w')) = false /\
     errors (hook (exec (downloadCSV_resume r) w')) = errors (hook w') /\
     fst (downloadCSV_resume r w') =
       match r with
       | Fulfilled _ => Normal tt
       | Rejected e => Throw e
       end).
Proof.
  split.
  - unfold downloadCSV. unfold_m. simpl. split; [done|]. by eexists.
  - intros r w'. unfold downloadCSV_resume. unfold_m.
    destruct r as [[token]|e]; simpl; [|done].
    destruct (truthy token); simpl; done.
Qed.

(** C10: when the token request succeeds with an absent or empty token,
    nothing is assigned to [window.location.href], the call completes
    normally, the error list is untouched and [downloading] is false. *)
Theorem downloadCSV_resume_no_token (w : World)
    (res : AxiosResponse (option string)) :
  data res = None \/ data res = Some "" ->
  fst (downloadCSV_resume (Fulfilled res) w) = Normal tt /\
  navigations (exec (downloadCSV_resume (Fulfilled res)) w) = navigations w /\
  errors (hook (exec (downloadCSV_resume (Fulfilled res)) w)) =
    errors (hook w) /\
  downloading (hook (exec (downloadCSV_resume (Fulfilled res)) w)) = false.
Proof.
  intros Htoken. unfold downloadCSV_resume. unfold_m. simpl.
  destruct Htoken as [-> | ->]; simpl; done.
Qed.

(** ** Rendering and the two effects *)

Lemma render_frame (w : World) :
  fst (render w) = Normal tt /\
  props (exec render w) = props w /\
  hook (exec render w) = hook w /\
  sessionStorage (exec render w) = sessionStorage w /\
  navigations (exec render w) = navigations w /\
  inflight (exec render w) = inflight w /\
  nextId (exec render w) = nextId w /\
  issued (exec render w) = issued w /\
  downloadResults (exec render w) = downloadResults w /\
  metadataEffect_deps (memo (exec render w)) = metadataEffect_deps (memo w) /\
  listEffect_deps (memo (exec render w)) = listEffect_deps (memo w) /\
  validTimeRange_deps (memo (exec render w)) = validTimeRange_now w /\
  selectedFields_deps (memo (exec render w)) =
    oref (visibleColumnKeys (props w)).
Proof.
  unfold render. unfold_m. simpl.
  repeat (case_decide; simpl); repeat split; done.
Qed.

Lemma render_idle (w : World) :
  validTimeRange_deps (memo w) = validTimeRange_now w ->
  selectedFields_deps (memo w) = oref (visibleColumnKeys (props w)) ->
  render w = (Normal tt, w).
Proof.
  intros Hv Hs. unfold render. unfold_m. simpl.
  rewrite decide_True by done. simpl. rewrite decide_True by done. done.
Qed.

(** The effects write no state cell but [statements] and
    [loadingStatements], and no memo cell but their own dependencies. *)
Lemma run_effects_frame (w : World) :
  fst (run_effects w) = Normal tt /\
  props (exec run_effects w) = props w /\
  sessionStorage (exec run_effects w) = sessionStorage w /\
  navigations (exec run_effects w) = navigations w /\
  downloadResults (exec run_effects w) = downloadResults w /\
  nextRef (exec run_effects w) = nextRef w /\
  hook (exec run_effects w) =
    hook_loadingStatements (loadingStatements (hook (exec run_effects w)))
      (hook_statements (statements (hook (exec run_effects w))) (hook w)) /\
  memo (exec run_effects w) =
    memo_listEffect_deps (Some (listEffect_now w))
      (memo_metadataEffect_deps (Some (metadataEffect_now w)) (memo w)).
Proof.
  destruct w as [p h m ss nav infl nid iss dr nr].
  destruct m as [vt vtd sf sfd md ld].
  unfold run_effects, metadataEffect, queryStatementStatus, querySchemas,
    queryTimeRanges, queryStmtTypes, queryStatementList,
    listEffect_now, metadataEffect_now, queryOptions.
  unfold_m. simpl.
  destruct h; simpl.
  repeat (case_decide; simpl); repeat (case_match; simpl);
    simplify_eq/=; repeat split; done.
Qed.

Lemma run_effects_idle (w : World) :
  settled_render w -> run_effects w = (Normal tt, w).
Proof.
  intros (_ & _ & Hm & Hl). unfold run_effects. unfold_m. simpl.
  rewrite decide_True by done. simpl. rewrite decide_True by done. done.
Qed.

(** What an effect pass sends: the four metadata calls when
    [refreshTimes] is not the value the first effect last ran with, and
    nothing else but statement-list calls. *)
Lemma run_effects_metadata_calls (w : World) :
  filter is_metadata_call (issued (exec run_effects w)) =
    filter is_metadata_call (issued w) ++
    (if decide (metadataEffect_deps (memo w) = Some (metadataEffect_now w))
     then [] else metadata_calls).
Proof.
  unfold run_effects, metadataEffect, queryStatementStatus, querySchemas,
    queryTimeRanges, queryStmtTypes, queryStatementList.
  unfold_m. simpl.
  repeat (case_decide; simpl); repeat (case_match; simpl);
    rewrite ?filter_app; simpl; rewrite ?app_nil_r, <- ?app_assoc; done.
Qed.

(** ** The handlers *)

Ltac unfold_handlers :=
  unfold handle, settle, downloadCSV, downloadCSV_resume,
    queryStatementList_resume, queryStmtTypes_resume, queryTimeRanges_resume,
    querySchemas_resume, queryStatementStatus_resume,
    queryStatementStatus_resume_no_data in *;
  unfold_m.

(** No handler throws: an error of a request is caught, and the one of the
    token request goes into the promise of [downloadCSV]. *)
Lemma handle_normal (ev : Event) (w : World) : fst (handle ev w) = Normal tt.
Proof.
  destruct ev; unfold_handlers; simpl; repeat (case_match; simpl);
    simplify_eq; done.
Qed.

Lemma step_unfold (w : World) (ev : Event) :
  step w ev = exec run_effects (exec render (exec (handle ev) w)).
Proof.
  unfold step, exec, bind.
  pose proof (handle_normal ev w) as Hh.
  destruct (handle ev w) as [c w1]; simpl in *; subst c.
  pose proof (render_frame w1) as [Hr _].
  destruct (render w1) as [c w2]; simpl in *; subst c. done.
Qed.

Lemma handle_of_same (w : World) (ev : Event) :
  handle_of w ev w = handle ev w.
Proof.
  destruct ev; try done; unfold handle_of, handle, setQueryOptions_of,
    setQueryOptions, downloadCSV_of, downloadCSV; unfold_m; done.
Qed.

(** The turn of a single event is [step]. *)
Lemma turn_single (w : World) (ev : Event) : turn w [ev] = step w ev.
Proof.
  unfold turn, step, handle_all, exec, bind, ret.
  rewrite handle_of_same. by destruct (handle ev w) as [[] ?].
Qed.

(** The handlers leave the memo cells alone and send no metadata call;
    [refresh] alone moves [refreshTimes]. *)
Lemma handle_frame (ev : Event) (w : World) :
  memo (exec (handle ev) w) = memo w /\
  filter is_metadata_call (issued (exec (handle ev) w)) =
    filter is_metadata_call (issued w) /\
  refreshTimes (hook (exec (handle ev) w)) =
    match ev with
    | CallRefresh => (refreshTimes (hook w) + 1)%N
    | _ => refreshTimes (hook w)
    end.
Proof.
  destruct ev; unfold_handlers; simpl; repeat (case_match; simpl);
    simplify_eq/=; rewrite ?filter_app, ?app_nil_r; done.
Qed.

Lemma settled_render_step (w : World) (ev : Event) :
  settled_render (step w ev).
Proof.
  rewrite step_unfold.
  set (w1 := exec (handle ev) w).
  pose proof (render_frame w1) as (_ & Hp & Hh & _ & _ & _ & _ & _ & _ & _ & _ & Hv & Hs).
  set (w2 := exec render w1) in *.
  pose proof (run_effects_frame w2) as (_ & Hp' & _ & _ & _ & _ & Hh' & Hm').
  unfold settled_render, validTimeRange_now, metadataEffect_now,
    listEffect_now, queryOptions in *.
  rewrite Hm', Hp', Hh'. simpl.
  rewrite Hv, Hs, Hp, Hh. done.
Qed.

Lemma settled_render_mount (p : Props) (storage : gmap string string) :
  settled_render (useStatementTableController p storage).
Proof.
  unfold useStatementTableController.
  destruct (getStoredValue storage 0 (default DEF_STMT_QUERY_OPTIONS (options p)))
    as [session n].
  match goal with |- settled_render (exec run_effects ?w) => set (first := w) end.
  pose proof (run_effects_frame first) as (_ & Hp' & _ & _ & _ & _ & Hh' & Hm').
  unfold settled_render, validTimeRange_now, metadataEffect_now,
    listEffect_now, queryOptions in *.
  rewrite Hm', Hp', Hh'. simpl. done.
Qed.

Lemma reachable_settled_render (w : World) : reachable w -> settled_render w.
Proof.
  intros [p storage | w' ev _];
    [apply settled_render_mount | apply settled_render_step].
Qed.

Lemma reachable_run (w : World) (evs : list Event) :
  reachable w -> reachable (run w evs).
Proof.
  revert w. induction evs as [|ev evs IH]; intros w Hw; simpl; [done|].
  apply IH. by constructor.
Qed.

(** In the event loop: the turn in which the token request of a
    [downloadCSV] call settles ends with [downloading] false, keeps the
    error list, and settles the promise the call returned. *)
Lemma step_token_settled (w : World) (id : nat) (req : DownloadRequest)
    (r : Settled (AxiosResponse (option string))) :
  inflight w !! id = Some (statementsDownloadTokenPost req) ->
  downloading (hook (step w (Settle id (TokenReply r)))) = false /\
  errors (hook (step w (Settle id (TokenReply r)))) = errors (hook w) /\
  downloadResults (step w (Settle id (TokenReply r))) =
    downloadResults w ++
    [match r with
     | Fulfilled _ => Normal tt
     | Rejected e => Throw e
     end].
Proof.
  intros Hid. rewrite step_unfold.
  set (w1 := exec (handle (Settle id (TokenReply r))) w).
  pose proof (render_frame w1) as (_ & _ & Hh & _ & _ & _ & _ & _ & Hd & _).
  pose proof (run_effects_frame (exec render w1))
    as (_ & _ & _ & _ & Hd' & _ & Hh' & _).
  rewrite Hh', Hd', Hh, Hd. unfold w1. unfold_handlers. simpl. rewrite Hid.
  destruct r as [[token]|e]; simpl; [|done].
  destruct (truthy token); done.
Qed.

(** The session storage is written by [setQueryOptions] of a persisting
    controller; of the other events, [changeOrder] is left out. *)
Lemma step_sessionStorage (w : World) (ev : Event) :
  (forall orderBy desc, ev <> CallChangeOrder orderBy desc) ->
  sessionStorage (step w ev) =
    match ev with
    | CallSetQueryOptions x =>
        if needSave (props w)
        then <[QUERY_OPTIONS := JSON_stringify (oval x)]> (sessionStorage w)
        else sessionStorage w
    | _ => sessionStorage w
    end.
Proof.
  intros _. rewrite step_unfold.
  set (w1 := exec (handle ev) w).
  pose proof (render_frame w1) as (_ & _ & _ & Hs & _).
  pose proof (run_effects_frame (exec render w1)) as (_ & _ & Hs' & _).
  rewrite Hs', Hs. unfold w1.
  destruct ev; unfold_handlers; simpl; repeat (case_match; simpl);
    simplify_eq/=; done.
Qed.

(** ** When the metadata is fetched *)

(** One turn of the event loop sends the four metadata calls when it is a
    call of [refresh], and none otherwise: not when the query options, the
    visible columns or another argument change, nor when a request
    settles. *)
Lemma step_metadata_calls (w : World) (ev : Event) :
  settled_render w ->
  filter is_metadata_call (issued (step w ev)) =
    filter is_metadata_call (issued w) ++
    (if is_refresh ev then metadata_calls else []).
Proof.
  intros (_ & _ & Hm & _).
  rewrite step_unfold, run_effects_metadata_calls.
  set (w1 := exec (handle ev) w).
  pose proof (render_frame w1) as (_ & _ & Hh & _ & _ & _ & _ & Hi & _ & Hd & _).
  pose proof (handle_frame ev w) as (Hmemo & Hcalls & Hrt). fold w1 in Hmemo, Hcalls, Hrt.
  unfold metadataEffect_now in *.
  rewrite Hi, Hd, Hh, Hcalls, Hmemo, Hm, Hrt. f_equal.
  destruct ev; simpl; case_decide; simplify_eq; try done; lia.
Qed.

Lemma mount_metadata_calls (p : Props) (storage : gmap string string) :
  filter is_metadata_call (issued (useStatementTableController p storage)) =
    metadata_calls.
Proof.
  unfold useStatementTableController.
  destruct (getStoredValue storage 0 (default DEF_STMT_QUERY_OPTIONS (options p)))
    as [session n].
  rewrite run_effects_metadata_calls. simpl. done.
Qed.

Lemma run_metadata_calls (w : World) (evs : list Event) :
  settled_render w ->
  filter is_metadata_call (issued (run w evs)) =
    filter is_metadata_call (issued w) ++
    concat (replicate (length (filter is_refresh evs)) metadata_calls).
Proof.
  unfold run. revert w. induction evs as [|ev evs IH]; intros w Hw; simpl.
  - by rewrite app_nil_r.
  - rewrite IH by apply settled_render_step.
    rewrite step_metadata_calls by done. rewrite <- app_assoc. f_equal.
    rewrite filter_cons. destruct ev; simpl; done.
Qed.

(** When every event has a render of its own, the four metadata calls are
    sent once when the controller is created and once more for each call
    of [refresh], and at no other moment. *)
Lemma metadata_fetched_once_per_refresh (p : Props)
    (storage : gmap string string) (evs : list Event) :
  filter is_metadata_call
    (issued (run (useStatementTableController p storage) evs)) =
  concat (replicate (1 + length (filter is_refresh evs)) metadata_calls).
Proof.
  rewrite run_metadata_calls by apply settled_render_mount.
  by rewrite mount_metadata_calls.
Qed.

(** ** Refresh *)

Ltac unfold_step :=
  unfold step, render, run_effects, metadataEffect, queryStatementStatus,
    querySchemas, queryTimeRanges, queryStmtTypes, queryStatementList,
    validTimeRange_now, metadataEffect_now, listEffect_now,
    compute_validTimeRange, compute_selectedFields, queryOptions in *;
  unfold_handlers.

(** Takes a world apart and replaces the recorded dependencies by the
    current values they are known to equal. *)
Ltac open_settled w Hw :=
  destruct w as [p h m ss nav infl nid iss dr nr];
  destruct m as [vt vtd sf sfd md ld];
  unfold settled_render, validTimeRange_now, metadataEffect_now,
    listEffect_now, queryOptions in Hw;
  simpl in Hw; destruct Hw as (-> & -> & -> & ->).

(** C5: a call of [refresh] empties the error list at once: in the world
    it leaves behind the list is empty, and the four requests it set off
    have only just been sent and are all still in flight. *)
Theorem refresh_clears_errors_first (w : World) :
  reachable w ->
  errors (hook (exec refresh w)) = [] /\
  errors (hook (step w CallRefresh)) = [] /\
  issued (step w CallRefresh) = issued w ++ metadata_calls /\
  inflight (step w CallRefresh) =
    <[S (S (S (nextId w))) := statementsStmtTypesGet]>
      (<[S (S (nextId w)) := statementsTimeRangesGet]>
         (<[S (nextId w) := infoListDatabases]>
            (<[nextId w := statementsConfigGet]> (inflight w)))).
Proof.
  intros Hw%reachable_settled_render. open_settled w Hw.
  split; [done|]. unfold_step. simpl.
  rewrite !decide_True by done. simpl.
  rewrite decide_False by (intros ?; simplify_eq; lia). simpl.
  rewrite decide_True by done. simpl.
  rewrite <- !app_assoc. done.
Qed.

(** ** The metadata loader *)

(** Rendering and the effects write no metadata field. *)
Lemma step_metadata_fields (w : World) (ev : Event) :
  metadata_fields (step w ev) = metadata_fields (exec (handle ev) w).
Proof.
  rewrite step_unfold.
  set (w1 := exec (handle ev) w).
  pose proof (render_frame w1) as (_ & _ & Hh & _).
  pose proof (run_effects_frame (exec render w1)) as (_ & _ & _ & _ & _ & _ & Hh' & _).
  unfold metadata_fields. rewrite Hh', Hh. done.
Qed.

(** The whole effect of a failed metadata request. *)
Lemma step_metadata_rejected (w : World) (k : Metadata) (id : nat)
    (e : JsError) :
  settled_render w ->
  inflight w !! id = Some (metadata_call k) ->
  step w (Settle id (metadata_rejected k e)) =
    with_hook (hook_errors (fun prev => prev ++ [e]))
      (with_inflight (delete id) w).
Proof.
  intros Hw Hid. open_settled w Hw. simpl in Hid.
  unfold_step. simpl. rewrite Hid.
  destruct k; simpl; rewrite ?decide_True by done; simpl;
    rewrite ?decide_True by done; done.
Qed.

(** C6: when one of the four metadata requests fails, its error is
    appended to the shared error list and no metadata field changes, its
    own included; the other requests stay in flight, nothing is sent
    again, and whatever reply another request gets afterwards has the
    effect on the metadata it would have had without the failure. *)
Theorem metadata_failure_isolated (w : World) (k : Metadata) (id : nat)
    (e : JsError) :
  reachable w ->
  inflight w !! id = Some (metadata_call k) ->
  errors (hook (step w (Settle id (metadata_rejected k e)))) =
    errors (hook w) ++ [e] /\
  metadata_fields (step w (Settle id (metadata_rejected k e))) =
    metadata_fields w /\
  inflight (step w (Settle id (metadata_rejected k e))) =
    delete id (inflight w) /\
  issued (step w (Settle id (metadata_rejected k e))) = issued w /\
  forall id' reply,
    id' <> id ->
    metadata_fields
      (step (step w (Settle id (metadata_rejected k e))) (Settle id' reply)) =
    metadata_fields (step w (Settle id' reply)).
Proof.
  intros Hw%reachable_settled_render Hid.
  rewrite step_metadata_rejected by done.
  repeat split; try done.
  intros id' reply Hne. rewrite !step_metadata_fields.
  unfold metadata_fields. unfold_handlers. simpl.
  rewrite lookup_delete_ne by done.
  repeat (case_match; simpl); simplify_eq/=; done.
Qed.

(** The first effect pass, in a world where no time range is known. *)
Lemma run_effects_first (w : World) :
  metadataEffect_deps (memo w) <> Some (metadataEffect_now w) ->
  listEffect_deps (memo w) <> Some (listEffect_now w) ->
  oval (allTimeRanges (hook w)) = [] ->
  issued (exec run_effects w) = issued w ++ metadata_calls /\
  inflight (exec run_effects w) =
    <[S (S (S (nextId w))) := statementsStmtTypesGet]>
      (<[S (S (nextId w)) := statementsTimeRangesGet]>
         (<[S (nextId w) := infoListDatabases]>
            (<[nextId w := statementsConfigGet]> (inflight w)))).
Proof.
  destruct w as [p h m ss nav infl nid iss dr nr].
  destruct m as [vt vtd sf sfd md ld]. intros Hm Hl Hempty.
  unfold_step. simpl in *.
  rewrite decide_False by done. simpl.
  rewrite decide_False by done. simpl. rewrite Hempty. simpl.
  rewrite <- !app_assoc. done.
Qed.

(** C3, as the code has it: when the controller has just been created
    and no request has settled yet, the three metadata lists are empty and
    the enable flag is [true]; afterwards a metadata field changes only in
    the turn in which a request of its own source succeeds, and then to
    the payload of that response (empty, or unset for the flag, when the
    payload is missing). *)
Theorem metadata_initial_and_replaced_by_own_fetch :
  (forall p storage,
     enable (hook (useStatementTableController p storage)) = Some true /\
     allSchemas (hook (useStatementTableController p storage)) = [] /\
     oval (allTimeRanges (hook (useStatementTableController p storage))) = [] /\
     allStmtTypes (hook (useStatementTableController p storage)) = [] /\
     issued (useStatementTableController p storage) = metadata_calls /\
     inflight (useStatementTableController p storage) =
       <[3 := statementsStmtTypesGet]>
         (<[2 := statementsTimeRangesGet]>
            (<[1 := infoListDatabases]> (<[0 := statementsConfigGet]> ∅)))) /\
  (forall w ev,
     (enable (hook (step w ev)) = enable (hook w) \/
      exists id res,
        ev = Settle id (ConfigReply (Fulfilled res)) /\
        inflight w !! id = Some statementsConfigGet /\
        enable (hook (step w ev)) =
          match res with
          | Some r => config_enable (data r)
          | None => None
          end) /\
     (allSchemas (hook (step w ev)) = allSchemas (hook w) \/
      exists id res,
        ev = Settle id (SchemasReply (Fulfilled res)) /\
        inflight w !! id = Some infoListDatabases /\
        allSchemas (hook (step w ev)) =
          match res with
          | Some {| data := Some l |} => l
          | _ => []
          end) /\
     (allTimeRanges (hook (step w ev)) = allTimeRanges (hook w) \/
      exists id res,
        ev = Settle id (TimeRangesReply (Fulfilled res)) /\
        inflight w !! id = Some statementsTimeRangesGet /\
        oval (allTimeRanges (hook (step w ev))) =
          match res with
          | Some {| data := Some l |} => l
          | _ => []
          end) /\
     (allStmtTypes (hook (step w ev)) = allStmtTypes (hook w) \/
      exists id res,
        ev = Settle id (StmtTypesReply (Fulfilled res)) /\
        inflight w !! id = Some statementsStmtTypesGet /\
        allStmtTypes (hook (step w ev)) =
          match res with
          | Some {| data := Some l |} => l
          | _ => []
          end)).
Proof.
  split.
  - intros p storage. unfold useStatementTableController.
    destruct (getStoredValue storage 0
                (default DEF_STMT_QUERY_OPTIONS (options p))) as [session n].
    match goal with |- context [exec run_effects ?f] => set (first := f) end.
    pose proof (run_effects_frame first) as (_ & _ & _ & _ & _ & _ & Hh & _).
    pose proof (run_effects_first first ltac:(done) ltac:(done) eq_refl)
      as (Hi & Hf).
    rewrite Hh, Hi, Hf. split_and!; reflexivity.
  - intros w ev.
    pose proof (step_metadata_fields w ev) as Hf. unfold metadata_fields in Hf.
    injection Hf as -> -> -> ->.
    destruct ev as [newOptions|orderBy desc| | |p'|id reply];
      unfold_handlers; simpl;
      try (repeat case_match; split_and!; left; done).
    destruct (inflight w !! id) as [[]|] eqn:Hid; try (split_and!; left; done);
      destruct reply as [[res|e]|[res|e]|[res|e]|[res|e]|[res|e]|[res|e]|te];
      try (split_and!; left; done); simpl;
      try (destruct (truthy (data res)); simpl);
      split_and!;
      first [ by left
            | right; exists id, res; split_and!; try done;
              by destruct res as [[[l|]]|] ].
Qed.

(** ** The persisted option store *)


(** * Further properties of the hook *)

(** ** More on rendering and effects *)

(** A turn whose handler leaves every dependency as it was is the handler
    alone: the render recomputes nothing and no effect runs. *)
Lemma step_idle (w : World) (ev : Event) :
  settled_render (exec (handle ev) w) -> step w ev = exec (handle ev) w.
Proof.
  intros Hs. rewrite step_unfold.
  destruct Hs as (Hv & Hf & Hm & Hl).
  unfold exec at 2. rewrite render_idle by done. simpl.
  unfold exec at 1. rewrite run_effects_idle by done. done.
Qed.

Lemma render_nextRef (w : World) : nextRef w <= nextRef (exec render w).
Proof.
  unfold render. unfold_m. simpl. repeat (case_decide; simpl); lia.
Qed.

(** What the second effect sends in an effect pass: one statement-list
    request when one of its dependencies changed and a time range is
    known, and nothing otherwise. *)
Lemma run_effects_list_calls (w : World) :
  filter is_list_call (issued (exec run_effects w)) =
    filter is_list_call (issued w) ++
    (if decide (listEffect_deps (memo w) = Some (listEffect_now w)) then []
     else match oval (allTimeRanges (hook w)) with
          | [] => []
          | _ :: _ => [list_request w]
          end).
Proof.
  destruct w as [p h m ss nav infl nid iss dr nr].
  destruct m as [vt vtd sf sfd md ld].
  unfold run_effects, metadataEffect, queryStatementStatus, querySchemas,
    queryTimeRanges, queryStmtTypes, queryStatementList, list_request,
    listEffect_now, metadataEffect_now, queryOptions.
  unfold_m. destruct h as [oo mq sq en [r [|t ts]] sc st ls sm rt er dl]; simpl;
    repeat (case_decide; simpl);
    rewrite ?filter_app; simpl; rewrite ?app_nil_r, <- ?app_assoc; done.
Qed.

Lemma handle_older_time_ranges (ev : Event) (w : World) :
  older_time_ranges w -> older_time_ranges (exec (handle ev) w).
Proof.
  unfold older_time_ranges.
  destruct ev; unfold_handlers; simpl; repeat (case_match; simpl);
    simplify_eq/=; intros Hw k Hk; simplify_eq/=;
    try (by apply Hw); try lia.
  all: by (specialize (Hw k Hk); lia).
Qed.

Lemma step_older_time_ranges (w : World) (ev : Event) :
  older_time_ranges w -> older_time_ranges (step w ev).
Proof.
  intros Hw%(handle_older_time_ranges ev). rewrite step_unfold.
  set (w1 := exec (handle ev) w) in *.
  pose proof (render_frame w1) as (_ & _ & Hh & _).
  pose proof (render_nextRef w1) as Hn.
  pose proof (run_effects_frame (exec render w1))
    as (_ & _ & _ & _ & _ & Hn' & Hh' & _).
  intros k. rewrite Hh', Hn'. simpl. rewrite Hh. intros Hk%Hw. lia.
Qed.

Lemma reachable_older_time_ranges (w : World) :
  reachable w -> older_time_ranges w.
Proof.
  induction 1 as [p storage | w ev _ IH]; [|by apply step_older_time_ranges].
  unfold useStatementTableController.
  destruct (getStoredValue storage 0
              (default DEF_STMT_QUERY_OPTIONS (options p))) as [session n].
  match goal with |- context [exec run_effects ?f] => set (first := f) end.
  pose proof (run_effects_frame first) as (_ & _ & _ & _ & _ & Hn & Hh & _).
  intros k. rewrite Hh, Hn. simpl. intros [= <-]. lia.
Qed.

(** What the handlers of the events in [never_refetches] leave alone. *)
Lemma handle_quiet (ev : Event) (w : World) :
  never_refetches ev = true ->
  props (exec (handle ev) w) = props w /\
  memo (exec (handle ev) w) = memo w /\
  sessionQueryOptions (hook (exec (handle ev) w)) =
    sessionQueryOptions (hook w) /\
  memoryQueryOptions (hook (exec (handle ev) w)) =
    memoryQueryOptions (hook w) /\
  allTimeRanges (hook (exec (handle ev) w)) = allTimeRanges (hook w) /\
  filter is_list_call (issued (exec (handle ev) w)) =
    filter is_list_call (issued w).
Proof.
  destruct ev; try done; intros Hq; unfold_handlers; simpl in *;
    repeat (case_match; simpl); simplify_eq/=;
    rewrite ?filter_app, ?app_nil_r; done.
Qed.

Lemma handle_quiet_settled (ev : Event) (w : World) :
  settled_render w ->
  never_refetches ev = true ->
  ev <> CallRefresh ->
  settled_render (exec (handle ev) w).
Proof.
  intros (Hv & Hf & Hm & Hl) Hq Hne.
  pose proof (handle_quiet ev w Hq) as (Hp & Hmemo & Hsq & Hmq & Ha & _).
  pose proof (handle_frame ev w) as (_ & _ & Hrt).
  unfold settled_render, validTimeRange_now, metadataEffect_now,
    listEffect_now, queryOptions in *.
  rewrite Hmemo, Hp, Hsq, Hmq, Ha, Hrt.
  split_and!; try done. by destruct ev.
Qed.

(** The whole turn in which a statement-list request settles. *)
Lemma step_list_settled (w : World) (id : nat) (c : Call)
    (r : Settled (option (AxiosResponse (option (list StatementModel))))) :
  settled_render w ->
  inflight w !! id = Some c ->
  is_list_call c = true ->
  step w (Settle id (ListReply r)) =
    exec (queryStatementList_resume r) (with_inflight (delete id) w).
Proof.
  intros Hw Hid Hc.
  rewrite step_idle by (by apply handle_quiet_settled).
  unfold handle, settle. unfold_m. rewrite Hid.
  destruct c; done.
Qed.

(** ** The state after construction *)

Lemma run_effects_first_hook (w : World) :
  metadataEffect_deps (memo w) <> Some (metadataEffect_now w) ->
  listEffect_deps (memo w) <> Some (listEffect_now w) ->
  oval (allTimeRanges (hook w)) = [] ->
  hook (exec run_effects w) =
    hook_loadingStatements false (hook_statements [] (hook w)).
Proof.
  destruct w as [p h m ss nav infl nid iss dr nr].
  destruct m as [vt vtd sf sfd md ld]. intros Hm Hl Hempty.
  unfold_step. simpl in *.
  rewrite decide_False by done. simpl.
  rewrite decide_False by done. simpl. rewrite Hempty. done.
Qed.

(** X1: a controller that has just been created is not loading: its first
    effect pass finds no time range, so it sends no statement-list request
    and sets [loadingStatements], which starts as true, to false; the
    statement list and the error list are empty and nothing is being
    downloaded. *)
Theorem created_not_loading (p : Props) (storage : gmap string string) :
  loadingStatements (hook (useStatementTableController p storage)) = false /\
  statements (hook (useStatementTableController p storage)) = [] /\
  errors (hook (useStatementTableController p storage)) = [] /\
  downloading (hook (useStatementTableController p storage)) = false /\
  refreshTimes (hook (useStatementTableController p storage)) = 0%N /\
  filter is_list_call (issued (useStatementTableController p storage)) = [].
Proof.
  unfold useStatementTableController.
  destruct (getStoredValue storage 0
              (default DEF_STMT_QUERY_OPTIONS (options p))) as [session n].
  match goal with |- context [exec run_effects ?f] => set (first := f) end.
  pose proof (run_effects_first_hook first ltac:(done) ltac:(done) eq_refl)
    as Hh.
  pose proof (run_effects_first first ltac:(done) ltac:(done) eq_refl)
    as (Hi & _).
  rewrite Hh, Hi. split_and!; reflexivity.
Qed.

(** ** The error list *)

(** X2: in one turn the error list either stays as it is, or becomes
    empty, or gets one error appended.  It becomes empty only by [refresh]
    or by a successful statement-list request.  An error is appended only
    in the turn in which a metadata or statement-list request in flight
    settles, and then in two cases: the request is rejected, and what is
    appended is the error of the rejection; or the feature-flag response
    arrives without data, and what is appended is the error thrown by
    reading it.  Nothing else reorders, drops or adds entries; a rejected
    token request does not touch the list. *)
Theorem errors_reset_or_appended (w : World) (ev : Event) :
  errors (hook (step w ev)) = errors (hook w) \/
  (errors (hook (step w ev)) = [] /\
   (ev = CallRefresh \/
    exists id res c,
      ev = Settle id (ListReply (Fulfilled res)) /\
      inflight w !! id = Some c /\ is_list_call c = true)) \/
  (exists id e,
     errors (hook (step w ev)) = errors (hook w) ++ [e] /\
     ((exists k,
         ev = Settle id (metadata_rejected k e) /\
         inflight w !! id = Some (metadata_call k)) \/
      (ev = Settle id (ConfigReplyNoData e) /\
       inflight w !! id = Some statementsConfigGet) \/
      (exists c,
         ev = Settle id (ListReply (Rejected e)) /\
         inflight w !! id = Some c /\ is_list_call c = true))).
Proof.
  assert (Hstep : errors (hook (step w ev)) = errors (hook (exec (handle ev) w))).
  { rewrite step_unfold. set (w1 := exec (handle ev) w).
    pose proof (render_frame w1) as (_ & _ & Hh & _).
    pose proof (run_effects_frame (exec render w1))
      as (_ & _ & _ & _ & _ & _ & Hh' & _).
    rewrite Hh', Hh. done. }
  rewrite Hstep. clear Hstep.
  destruct ev as [newOptions|orderBy desc| | |p'|id reply];
    unfold_handlers; simpl;
    try (repeat case_match; left; done).
  - right. left. split; [done|]. by left.
  - destruct (inflight w !! id) as [c|] eqn:Hid; [|by left].
    destruct c, reply as [[res|e]|[res|e]|[res|e]|[res|e]|[res|e]|[res|e]|te];
      simpl; try (by left).
    + right. right. exists id, e. split; [done|]. left. by exists MEnable.
    + right. right. exists id, te. split; [done|]. right. by left.
    + right. right. exists id, e. split; [done|]. left. by exists MSchemas.
    + right. right. exists id, e. split; [done|]. left. by exists MTimeRanges.
    + right. right. exists id, e. split; [done|]. left. by exists MStmtTypes.
    + right. left. split; [done|]. right. by eexists id, res, _.
    + right. right. exists id, e. split; [done|]. right. right. by eexists.
    + destruct (truthy (data res)); by left.
Qed.

(** ** When the statement list is fetched *)

(** X3: a call of [refresh], of [changeOrder] or of [downloadCSV], and a
    settled request of any kind but a successful time-range request,
    never makes the controller fetch the statement list, and leaves the
    valid time range as it is. *)
Theorem quiet_events_never_refetch (w : World) (ev : Event) :
  reachable w ->
  never_refetches ev = true ->
  filter is_list_call (issued (step w ev)) = filter is_list_call (issued w) /\
  validTimeRange (memo (step w ev)) = validTimeRange (memo w).
Proof.
  intros (Hv & Hf & Hm & Hl)%reachable_settled_render Hq.
  pose proof (handle_quiet ev w Hq) as (Hp & Hmemo & Hsq & Hmq & Ha & Hi).
  rewrite step_unfold. set (w1 := exec (handle ev) w) in *.
  assert (Hidle : exec render w1 = w1).
  { unfold exec. rewrite render_idle; [done| |].
    - unfold validTimeRange_now, queryOptions in *.
      by rewrite Hmemo, Hp, Hsq, Hmq, Ha.
    - by rewrite Hmemo, Hp. }
  rewrite Hidle, run_effects_list_calls.
  pose proof (run_effects_frame w1) as (_ & _ & _ & _ & _ & _ & _ & Hm').
  rewrite Hm', Hi. simpl. rewrite Hmemo. split; [|done].
  rewrite decide_True; [by rewrite app_nil_r|].
  unfold listEffect_now, queryOptions in *.
  by rewrite Hl, Hmemo, Hp, Hsq, Hmq, Ha.
Qed.

(** X4: when two statement-list requests are in flight, the reply that
    arrives last decides: after the first reply [loadingStatements] is
    already false although the second request is still in flight, and
    after the second one [statements] is its payload if it succeeded, and
    what the first reply left if it failed.  Replies are not matched to
    the newest request. *)
Theorem last_list_reply_wins (w : World) (a b : nat) (ca cb : Call)
    (ra rb : Settled (option (AxiosResponse (option (list StatementModel))))) :
  reachable w ->
  a <> b ->
  inflight w !! a = Some ca -> is_list_call ca = true ->
  inflight w !! b = Some cb -> is_list_call cb = true ->
  loadingStatements (hook (step w (Settle a (ListReply ra)))) = false /\
  inflight (step w (Settle a (ListReply ra))) !! b = Some cb /\
  statements
    (hook (step (step w (Settle a (ListReply ra))) (Settle b (ListReply rb)))) =
    match rb with
    | Fulfilled res => data_or_empty res
    | Rejected _ => statements (hook (step w (Settle a (ListReply ra))))
    end.
Proof.
  intros Hw Hab Ha Hca Hb Hcb.
  assert (Hb' : inflight (step w (Settle a (ListReply ra))) !! b = Some cb).
  { rewrite (step_list_settled w a ca) by eauto using reachable_settled_render.
    unfold queryStatementList_resume. unfold_m.
    destruct ra; simpl; by rewrite lookup_delete_ne. }
  split_and!; [|done|].
  - rewrite (step_list_settled w a ca) by eauto using reachable_settled_render.
    unfold queryStatementList_resume. unfold_m. by destruct ra.
  - rewrite (step_list_settled _ b cb);
      [|by apply reachable_settled_render, reachable_step|done..].
    unfold queryStatementList_resume. unfold_m. by destruct rb.
Qed.

(** X6: when a time-range request succeeds, [allTimeRanges] becomes its
    payload, the valid time range is computed anew from the requested
    range and that payload, and the statement list loader runs in the same
    turn.  With a non-empty payload it sets [loadingStatements] and sends
    one request carrying the bounds of the new valid time range, the
    selected fields and the current filters; with an empty or missing
    payload it sends nothing and empties [statements]. *)
Theorem time_ranges_arrive (w : World) (id : nat)
    (res : option (AxiosResponse (option (list StatementTimeRange)))) :
  reachable w ->
  inflight w !! id = Some statementsTimeRangesGet ->
  oval (allTimeRanges (hook (step w (Settle id (TimeRangesReply (Fulfilled res)))))) =
    data_or_empty res /\
  oval (validTimeRange (memo (step w (Settle id (TimeRangesReply (Fulfilled res)))))) =
    calcValidStatementTimeRange (timeRange (oval (queryOptions w)))
      (data_or_empty res) /\
  match data_or_empty res with
  | [] =>
      statements (hook (step w (Settle id (TimeRangesReply (Fulfilled res))))) = [] /\
      loadingStatements
        (hook (step w (Settle id (TimeRangesReply (Fulfilled res))))) = false /\
      issued (step w (Settle id (TimeRangesReply (Fulfilled res)))) = issued w /\
      inflight (step w (Settle id (TimeRangesReply (Fulfilled res)))) =
        delete id (inflight w)
  | t :: ts =>
      statements (hook (step w (Settle id (TimeRangesReply (Fulfilled res))))) =
        statements (hook w) /\
      loadingStatements
        (hook (step w (Settle id (TimeRangesReply (Fulfilled res))))) = true /\
      issued (step w (Settle id (TimeRangesReply (Fulfilled res)))) =
        issued w ++
        [statementsListGet
           (begin_time
              (calcValidStatementTimeRange (timeRange (oval (queryOptions w)))
                 (t :: ts)))
           (end_time
              (calcValidStatementTimeRange (timeRange (oval (queryOptions w)))
                 (t :: ts)))
           (selectedFields (memo w))
           (schemas (oval (queryOptions w)))
           (stmtTypes (oval (queryOptions w)))
           (searchText (oval (queryOptions w)))] /\
      is_Some
        (inflight (step w (Settle id (TimeRangesReply (Fulfilled res)))) !!
           nextId w)
  end.
Proof.
  intros Hreach Hid.
  pose proof (reachable_older_time_ranges w Hreach) as Hold.
  pose proof (reachable_settled_render w Hreach) as Hw.
  unfold older_time_ranges in Hold. clear Hreach.
  open_settled w Hw. simpl in Hid, Hold.
  unfold_step. simpl. rewrite Hid. simpl.
  rewrite decide_False
    by (intros ?; simplify_eq;
        match goal with Hk : oref _ = RFresh _ |- _ => apply Hold in Hk end;
        lia).
  simpl. rewrite !decide_True by done. simpl.
  rewrite decide_False
    by (intros ?; simplify_eq;
        match goal with Hk : oref _ = RFresh _ |- _ => apply Hold in Hk end;
        lia).
  simpl. destruct (data_or_empty res) as [|t ts]; simpl; split_and!; try done.
  by rewrite lookup_insert_eq.
Qed.

(** X7: a call of [setQueryOptions] that is alone in its render (no
    other call or reply is handled between the render before it and the
    one it causes), with an object other than the current options, makes
    that object the current options, computes the valid time range anew
    from its requested range, and runs the statement list loader in that
    render: with a known time range it sends one request carrying the new
    filters, with none it sends nothing and empties [statements]. *)
Theorem setQueryOptions_refetches (w : World)
    (x : Obj IStatementQueryOptions) :
  reachable w ->
  oref x <> oref (queryOptions w) ->
  queryOptions (turn w [CallSetQueryOptions x]) = x /\
  oval (validTimeRange (memo (turn w [CallSetQueryOptions x]))) =
    calcValidStatementTimeRange (timeRange (oval x))
      (oval (allTimeRanges (hook w))) /\
  match oval (allTimeRanges (hook w)) with
  | [] =>
      statements (hook (turn w [CallSetQueryOptions x])) = [] /\
      loadingStatements (hook (turn w [CallSetQueryOptions x])) = false /\
      issued (turn w [CallSetQueryOptions x]) = issued w
  | _ :: _ =>
      statements (hook (turn w [CallSetQueryOptions x])) = statements (hook w) /\
      loadingStatements (hook (turn w [CallSetQueryOptions x])) = true /\
      issued (turn w [CallSetQueryOptions x]) =
        issued w ++
        [statementsListGet
           (begin_time
              (calcValidStatementTimeRange (timeRange (oval x))
                 (oval (allTimeRanges (hook w)))))
           (end_time
              (calcValidStatementTimeRange (timeRange (oval x))
                 (oval (allTimeRanges (hook w)))))
           (selectedFields (memo w))
           (schemas (oval x)) (stmtTypes (oval x)) (searchText (oval x))]
  end.
Proof.
  intros Hw%reachable_settled_render Hne. rewrite !turn_single.
  open_settled w Hw. unfold queryOptions in Hne. simpl in Hne.
  unfold_step. simpl.
  destruct (needSave p) eqn:Hsave; simpl in *.
  all: repeat (rewrite !Hsave; simpl).
  all: rewrite decide_False by congruence.
  all: simpl; rewrite !decide_True by done; simpl.
  all: repeat (rewrite !Hsave; simpl).
  all: rewrite decide_False by congruence.
  all: simpl; destruct h as [oo mq sq en [r [|t ts]] sc st ls sm rt er dl];
    simpl; repeat (rewrite !Hsave; simpl); split_and!; done.
Qed.

(** X8: [setQueryOptions] with the very object that is current fetches
    nothing and changes no state. *)
Theorem setQueryOptions_same_object (w : World) :
  reachable w ->
  issued (step w (CallSetQueryOptions (queryOptions w))) = issued w /\
  hook (step w (CallSetQueryOptions (queryOptions w))) = hook w /\
  memo (step w (CallSetQueryOptions (queryOptions w))) = memo w.
Proof.
  intros Hw%reachable_settled_render.
  open_settled w Hw.
  unfold_step. simpl.
  destruct (needSave p) eqn:Hsave; simpl.
  all: repeat (rewrite !Hsave; simpl).
  all: rewrite !decide_True by done; simpl.
  all: repeat (rewrite !Hsave; simpl).
  all: rewrite ?decide_True by done; simpl.
  all: by destruct h.
Qed.

(** X9: a render with new arguments whose visible columns select the
    field list already in use fetches nothing and changes no state,
    whether the column object is the same or another one, and whatever
    [showFullSQL] and [options] are (the persistence flag being as
    before). *)
Theorem rerender_same_fields (w : World) (p' : Props) :
  reachable w ->
  needSave p' = needSave (props w) ->
  String.concat "," (getSelectedFields (oval (visibleColumnKeys p'))) =
    selectedFields (memo w) ->
  issued (step w (Rerender p')) = issued w /\
  hook (step w (Rerender p')) = hook w /\
  selectedFields (memo (step w (Rerender p'))) = selectedFields (memo w).
Proof.
  intros Hw%reachable_settled_render Hsave Hfields.
  open_settled w Hw. simpl in Hsave, Hfields.
  unfold_step. simpl. rewrite !Hsave. simpl.
  rewrite decide_True by done. simpl.
  case_decide; simpl; rewrite ?Hsave, ?Hfields; simpl.
  all: rewrite !decide_True by congruence; simpl.
  all: rewrite ?Hsave; rewrite ?decide_True by congruence; done.
Qed.

(** X10: a render with another column object that selects another field
    list runs the statement list loader in the same turn: with a known
    time range it sends one request carrying the new field list and the
    unchanged time range and filters, with none it sends nothing and
    empties [statements]. *)
Theorem rerender_other_fields (w : World) (p' : Props) :
  reachable w ->
  needSave p' = needSave (props w) ->
  oref (visibleColumnKeys p') <> oref (visibleColumnKeys (props w)) ->
  String.concat "," (getSelectedFields (oval (visibleColumnKeys p'))) <>
    selectedFields (memo w) ->
  selectedFields (memo (step w (Rerender p'))) =
    String.concat "," (getSelectedFields (oval (visibleColumnKeys p'))) /\
  match oval (allTimeRanges (hook w)) with
  | [] =>
      statements (hook (step w (Rerender p'))) = [] /\
      loadingStatements (hook (step w (Rerender p'))) = false /\
      issued (step w (Rerender p')) = issued w
  | _ :: _ =>
      statements (hook (step w (Rerender p'))) = statements (hook w) /\
      loadingStatements (hook (step w (Rerender p'))) = true /\
      issued (step w (Rerender p')) =
        issued w ++
        [statementsListGet
           (begin_time (oval (validTimeRange (memo w))))
           (end_time (oval (validTimeRange (memo w))))
           (String.concat "," (getSelectedFields (oval (visibleColumnKeys p'))))
           (schemas (oval (queryOptions w)))
           (stmtTypes (oval (queryOptions w)))
           (searchText (oval (queryOptions w)))]
  end.
Proof.
  intros Hw%reachable_settled_render Hsave Hobj Hfields.
  open_settled w Hw. unfold queryOptions. simpl in *.
  unfold_step. simpl. rewrite !Hsave. simpl.
  rewrite decide_True by done. simpl.
  rewrite decide_False by congruence. simpl.
  rewrite decide_True by done. simpl. rewrite ?Hsave.
  rewrite decide_False by congruence. simpl.
  destruct h as [oo mq sq en [r [|t ts]] sc st ls sm rt er dl];
    simpl; rewrite ?Hsave; split_and!; done.
Qed.

(** ** More on the CSV export *)

(** X11: a call of [downloadCSV] sets [downloading] and sends exactly one
    request, the token request, with the bounds of the valid time range,
    the field selector "*" and the current filters; it fetches no list
    and changes neither [statements] nor the error list. *)
Theorem downloadCSV_call (w : World) :
  reachable w ->
  downloading (hook (step w CallDownloadCSV)) = true /\
  issued (step w CallDownloadCSV) =
    issued w ++
    [statementsDownloadTokenPost
       {| req_begin_time := begin_time (oval (validTimeRange (memo w)));
          req_end_time := end_time (oval (validTimeRange (memo w)));
          req_fields := "*";
          req_schemas := schemas (oval (queryOptions w));
          req_stmt_types := stmtTypes (oval (queryOptions w));
          req_text := searchText (oval (queryOptions w)) |}] /\
  is_Some (inflight (step w CallDownloadCSV) !! nextId w) /\
  statements (hook (step w CallDownloadCSV)) = statements (hook w) /\
  errors (hook (step w CallDownloadCSV)) = errors (hook w).
Proof.
  intros Hw%reachable_settled_render.
  rewrite step_idle by (by apply handle_quiet_settled).
  unfold handle, downloadCSV. unfold_m. simpl.
  split_and!; try done. by rewrite lookup_insert_eq.
Qed.

(** X12: when the token request succeeds with a non-empty token, the
    browser is sent, once, to the base path followed by
    "/statements/download?token=" and the token; the promise of
    [downloadCSV] is fulfilled and [downloading] is false again. *)
Theorem download_navigates (w : World) (id : nat) (req : DownloadRequest)
    (token : string) :
  inflight w !! id = Some (statementsDownloadTokenPost req) ->
  token <> "" ->
  navigations
    (step w (Settle id (TokenReply (Fulfilled {| data := Some token |})))) =
    navigations w ++
    [getBasePath +:+ "/statements/download?token=" +:+ token] /\
  downloadResults
    (step w (Settle id (TokenReply (Fulfilled {| data := Some token |})))) =
    downloadResults w ++ [Normal tt] /\
  downloading
    (hook (step w (Settle id (TokenReply (Fulfilled {| data := Some token |})))))
    = false.
Proof.
  intros Hid Htoken.
  pose proof (step_token_settled w id req
                (Fulfilled {| data := Some token |}) Hid) as (Hd & _ & Hr).
  split_and!; [|done..].
  rewrite step_unfold.
  set (w1 := exec (handle _) w).
  pose proof (render_frame w1) as (_ & _ & _ & _ & Hn & _).
  pose proof (run_effects_frame (exec render w1)) as (_ & _ & _ & Hn' & _).
  rewrite Hn', Hn. unfold w1. unfold_handlers. simpl. rewrite Hid. simpl.
  assert (Ht : (token =? "")%string = false) by by apply String.eqb_neq.
  rewrite Ht. done.
Qed.

(** ** The two busy flags *)

(** What a settled request does to the in-flight table and the flags. *)
Lemma settle_cases (id : nat) (reply : Reply) (w : World) :
  exec (settle id reply) w = w \/
  exists c,
    inflight w !! id = Some c /\
    inflight (exec (settle id reply) w) = delete id (inflight w) /\
    nextId (exec (settle id reply) w) = nextId w /\
    (if is_list_call c
     then loadingStatements (hook (exec (settle id reply) w)) = false
     else loadingStatements (hook (exec (settle id reply) w)) =
            loadingStatements (hook w)) /\
    (if is_token_call c
     then downloading (hook (exec (settle id reply) w)) = false
     else downloading (hook (exec (settle id reply) w)) =
            downloading (hook w)).
Proof.
  unfold settle, downloadCSV_resume, queryStatementList_resume,
    queryStmtTypes_resume, queryTimeRanges_resume, querySchemas_resume,
    queryStatementStatus_resume, queryStatementStatus_resume_no_data.
  unfold_m. simpl.
  destruct (inflight w !! id) as [c|] eqn:Hid; [|by left].
  destruct c, reply as [[res|e]|[res|e]|[res|e]|[res|e]|[res|e]|[res|e]|te];
    simpl; try (by left); right; eexists; (split; [done|]); simpl;
    try (destruct (truthy (data res))); simpl; done.
Qed.

(** A handler keeps the requests in flight, but the one that settled, and
    adds at most the token request. *)
Lemma handle_inflight (ev : Event) (w : World) :
  nextId w <= nextId (exec (handle ev) w) /\
  (forall id c,
     inflight (exec (handle ev) w) !! id = Some c ->
     inflight w !! id = Some c \/
     (nextId w <= id < nextId (exec (handle ev) w))) /\
  (forall id c,
     inflight w !! id = Some c -> id < nextId w ->
     (forall id' reply, ev <> Settle id' reply) ->
     inflight (exec (handle ev) w) !! id = Some c).
Proof.
  destruct ev as [newOptions|orderBy desc| | |p'|id' reply].
  1-5: unfold handle, downloadCSV; unfold_m; simpl;
    repeat case_match; simpl; split_and!; try lia; try (by left; done);
    try (intros; done).
  - intros id c. destruct (decide (id = nextId w)) as [->|Hne].
    + right. lia.
    + rewrite lookup_insert_ne by done. by left.
  - intros id c Hid Hlt _. rewrite lookup_insert_ne by lia. done.
  - unfold handle. destruct (settle_cases id' reply w) as [-> | (c & Hid & Hd & Hn & _)].
    + split_and!; [lia| by left |done].
    + rewrite Hd, Hn. split_and!; [lia| |].
      * intros id c0 Hl. left.
        destruct (decide (id' = id)) as [->|Hne];
          [by rewrite lookup_delete_eq in Hl|by rewrite lookup_delete_ne in Hl].
      * intros id c0 _ _ Hev. by destruct (Hev id' reply).
Qed.

(** An effect pass keeps the requests in flight and numbers the ones it
    sends from [nextId] on; when it leaves [loadingStatements] true, the
    flag was true before or a statement-list request has just been sent.
    It does not write [downloading]. *)
Lemma run_effects_inflight (w : World) :
  nextId w <= nextId (exec run_effects w) /\
  (forall id c,
     inflight (exec run_effects w) !! id = Some c ->
     inflight w !! id = Some c \/ nextId w <= id < nextId (exec run_effects w)) /\
  (forall id, id < nextId w ->
     inflight (exec run_effects w) !! id = inflight w !! id) /\
  (loadingStatements (hook (exec run_effects w)) = true ->
   loadingStatements (hook w) = true \/
   exists id c, inflight (exec run_effects w) !! id = Some c /\
                is_list_call c = true) /\
  downloading (hook (exec run_effects w)) = downloading (hook w).
Proof.
  destruct w as [p h m ss nav infl nid iss dr nr].
  destruct m as [vt vtd sf sfd md ld].
  unfold run_effects, metadataEffect, queryStatementStatus, querySchemas,
    queryTimeRanges, queryStmtTypes, queryStatementList,
    listEffect_now, metadataEffect_now, queryOptions.
  unfold_m. destruct h as [oo mq sq en [r [|t ts]] sc st ls sm rt er dl]; simpl;
    repeat (case_decide; simpl); split_and!; try lia; try done;
    try (by left); try (intros id c Hl; by left);
    try (intros id Hlt; by rewrite ?lookup_insert_ne by lia).
  all: try (intros _; right; eexists _, _; split;
            [apply lookup_insert_eq|done]).
  all: intros id c Hl;
    repeat match type of Hl with
           | <[?k := _]> _ !! id = Some _ =>
               destruct (decide (k = id)) as [<-|?];
               [right; lia | rewrite lookup_insert_ne in Hl by done]
           end; by left.
Qed.

Lemma step_inflight_below (w : World) (ev : Event) :
  inflight_below w -> inflight_below (step w ev).
Proof.
  intros Hw. rewrite step_unfold.
  pose proof (handle_inflight ev w) as (Hn1 & Hin1 & _).
  set (w1 := exec (handle ev) w) in *.
  pose proof (render_frame w1) as (_ & _ & _ & _ & _ & Hi & Hn & _).
  pose proof (run_effects_inflight (exec render w1)) as (Hn3 & Hin3 & _).
  rewrite Hn in Hn3, Hin3. intros id c Hl.
  destruct (Hin3 id c Hl) as [Hl2 | ?]; [|lia].
  rewrite Hi in Hl2. destruct (Hin1 id c Hl2) as [Hl1%Hw | ?]; lia.
Qed.

Lemma reachable_inflight_below (w : World) :
  reachable w -> inflight_below w.
Proof.
  induction 1 as [p storage | w ev _ IH]; [|by apply step_inflight_below].
  unfold useStatementTableController.
  destruct (getStoredValue storage 0
              (default DEF_STMT_QUERY_OPTIONS (options p))) as [session n].
  match goal with |- context [exec run_effects ?f] => set (first := f) end.
  pose proof (run_effects_inflight first) as (_ & Hin & _).
  intros id c Hl. destruct (Hin id c Hl) as [Hl0 | ?]; [|lia].
  unfold first in Hl0. cbn [inflight] in Hl0. by rewrite lookup_empty in Hl0.
Qed.

(** How one turn treats a flag that is true only while a request of its
    kind is in flight. *)
Lemma step_flag_has_request (w : World) (ev : Event)
    (kind : Call -> bool) (flag : HookState -> bool) :
  inflight_below w ->
  (flag (hook w) = true ->
   exists id c, inflight w !! id = Some c /\ kind c = true) ->
  (* a settled request of this kind clears the flag, another one and any
     other event but the call that sets it keeps it *)
  (flag (hook (exec (handle ev) w)) = true ->
   (flag (hook w) = true /\
    forall id reply c,
      ev = Settle id reply -> inflight w !! id = Some c ->
      inflight (exec (settle id reply) w) = delete id (inflight w) ->
      kind c = false) \/
   exists c, inflight (exec (handle ev) w) !! nextId w = Some c /\
             kind c = true) ->
  (flag (hook (step w ev)) = true ->
   flag (hook (exec (handle ev) w)) = true \/
   exists id c, inflight (step w ev) !! id = Some c /\ kind c = true) ->
  flag (hook (step w ev)) = true ->
  exists id c, inflight (step w ev) !! id = Some c /\ kind c = true.
Proof.
  intros Hbelow Hinv Hhandle Hstep Hflag.
  destruct (Hstep Hflag) as [Hflag1 | ?]; [|done].
  pose proof (handle_inflight ev w) as (Hn1 & _ & Hkeep).
  assert (Hw1 : exists id c, inflight (exec (handle ev) w) !! id = Some c /\
                              kind c = true /\ id < nextId (exec (handle ev) w)).
  { destruct (Hhandle Hflag1) as [[Hflag0 Hkind] | (c & Hc & Hk)].
    - destruct (Hinv Hflag0) as (id & c & Hid & Hk).
      exists id, c. pose proof (Hbelow _ _ Hid) as Hlt.
      split_and!; [|done|lia].
      destruct ev as [newOptions|orderBy desc| | |p'|id' reply];
        try (by apply Hkeep).
      unfold handle.
      destruct (settle_cases id' reply w) as [-> | (c' & Hid' & Hd & _)];
        [done|].
      rewrite Hd. rewrite lookup_delete_ne; [done|]. intros ->.
      specialize (Hkind id reply c' eq_refl Hid' Hd). congruence.
    - exists (nextId w), c. split_and!; [done..|].
      pose proof (handle_inflight ev w) as (_ & Hin & _).
      destruct (Hin _ _ Hc) as [Hold%Hbelow | ?]; lia. }
  destruct Hw1 as (id & c & Hid & Hk & Hlt).
  exists id, c. split; [|done]. rewrite step_unfold.
  set (w1 := exec (handle ev) w) in *.
  pose proof (render_frame w1) as (_ & _ & _ & _ & _ & Hi & Hn & _).
  pose proof (run_effects_inflight (exec render w1)) as (_ & _ & Hsame & _).
  rewrite Hsame by (rewrite Hn; lia). by rewrite Hi.
Qed.

Lemma handle_flags_unsettled (ev : Event) (w : World) :
  (forall id reply, ev <> Settle id reply) ->
  loadingStatements (hook (exec (handle ev) w)) = loadingStatements (hook w) /\
  (downloading (hook (exec (handle ev) w)) = downloading (hook w) \/
   exists c, inflight (exec (handle ev) w) !! nextId w = Some c /\
             is_token_call c = true).
Proof.
  intros Hev.
  destruct ev as [newOptions|orderBy desc| | |p'|id' reply];
    [..|by destruct (Hev id' reply)];
    unfold handle, downloadCSV; unfold_m; simpl; repeat case_match; simpl;
    split; try done; try (by left).
  right. eexists. split; [apply lookup_insert_eq|done].
Qed.

(** X13: once the effects of the first render have run, and after every
    later turn, [loadingStatements] being true implies that a
    statement-list request is in flight.  (The flag starts as true, line
    109, and the first effect pass clears it.) *)
Theorem loading_has_request (w : World) :
  reachable w ->
  loadingStatements (hook w) = true ->
  exists id c, inflight w !! id = Some c /\ is_list_call c = true.
Proof.
  induction 1 as [p storage | w ev Hw IH].
  - unfold useStatementTableController.
    destruct (getStoredValue storage 0
                (default DEF_STMT_QUERY_OPTIONS (options p))) as [session n].
    match goal with |- context [exec run_effects ?f] => set (first := f) end.
    rewrite (run_effects_first_hook first) by done. done.
  - apply (step_flag_has_request w ev is_list_call loadingStatements);
      [by apply reachable_inflight_below|done| |].
    + intros Hflag. left.
      destruct ev as [newOptions|orderBy desc| | |p'|id' reply].
      1-5: match type of Hflag with
           | context [handle ?e] =>
               destruct (handle_flags_unsettled e w) as [Hl _]; [done|]
           end;
        rewrite Hl in Hflag; split; [done|]; by intros.
      unfold handle in Hflag.
      destruct (settle_cases id' reply w) as [Heq | (c & Hid & _ & _ & Hl & _)].
      * rewrite Heq in Hflag. split; [done|].
        intros ? ? c [= <- <-] Hid Hgone. rewrite Heq in Hgone.
        rewrite Hgone in Hid. by rewrite lookup_delete_eq in Hid.
      * destruct (is_list_call c) eqn:Hc; [congruence|].
        rewrite Hl in Hflag. split; [done|].
        intros ? ? c' [= <- <-] Hid' _. congruence.
    + rewrite step_unfold. set (w1 := exec (handle ev) w).
      pose proof (render_frame w1) as (_ & _ & Hh & _).
      pose proof (run_effects_inflight (exec render w1)) as (_ & _ & _ & Hl & _).
      rewrite Hh in Hl. done.
Qed.

(** X14: whenever [downloading] is true, a token request is in flight. *)
Theorem downloading_has_request (w : World) :
  reachable w ->
  downloading (hook w) = true ->
  exists id c, inflight w !! id = Some c /\ is_token_call c = true.
Proof.
  induction 1 as [p storage | w ev Hw IH].
  - unfold useStatementTableController.
    destruct (getStoredValue storage 0
                (default DEF_STMT_QUERY_OPTIONS (options p))) as [session n].
    match goal with |- context [exec run_effects ?f] => set (first := f) end.
    rewrite (run_effects_first_hook first) by done. done.
  - apply (step_flag_has_request w ev is_token_call downloading);
      [by apply reachable_inflight_below|done| |].
    + intros Hflag.
      destruct ev as [newOptions|orderBy desc| | |p'|id' reply].
      1-5: match type of Hflag with
           | context [handle ?e] =>
               destruct (handle_flags_unsettled e w) as [_ [Hd|?]]; [done|..]
           end;
        [left; rewrite Hd in Hflag; split; [done|]; by intros | by right].
      left. unfold handle in Hflag.
      destruct (settle_cases id' reply w) as [Heq | (c & Hid & _ & _ & _ & Hd)].
      * rewrite Heq in Hflag. split; [done|].
        intros ? ? c [= <- <-] Hid Hgone. rewrite Heq in Hgone.
        rewrite Hgone in Hid. by rewrite lookup_delete_eq in Hid.
      * destruct (is_token_call c) eqn:Hc; [congruence|].
        rewrite Hd in Hflag. split; [done|].
        intros ? ? c' [= <- <-] Hid' _. congruence.
    + rewrite step_unfold. set (w1 := exec (handle ev) w).
      pose proof (render_frame w1) as (_ & _ & Hh & _).
      pose proof (run_effects_inflight (exec render w1)) as (_ & _ & _ & _ & Hd).
      rewrite Hh in Hd. rewrite Hd. by left.
Qed.

(** ** Where the statement list comes from *)

Lemma run_effects_statements (w : World) :
  statements (hook (exec run_effects w)) = statements (hook w) \/
  statements (hook (exec run_effects w)) = [].
Proof.
  destruct w as [p h m ss nav infl nid iss dr nr].
  destruct m as [vt vtd sf sfd md ld].
  unfold run_effects, metadataEffect, queryStatementStatus, querySchemas,
    queryTimeRanges, queryStmtTypes, queryStatementList,
    listEffect_now, metadataEffect_now, queryOptions.
  unfold_m. destruct h as [oo mq sq en [r [|t ts]] sc st ls sm rt er dl]; simpl;
    repeat (case_decide; simpl); first [by left | by right].
Qed.

Lemma step_statements (w : World) (ev : Event) :
  statements (hook (step w ev)) = statements (hook w) \/
  statements (hook (step w ev)) = [] \/
  exists id res,
    ev = Settle id (ListReply (Fulfilled res)) /\
    statements (hook (step w ev)) = data_or_empty res.
Proof.
  rewrite step_unfold. set (w1 := exec (handle ev) w).
  pose proof (render_frame w1) as (_ & _ & Hh & _).
  destruct (run_effects_statements (exec render w1)) as [-> | ->];
    [|by right; left].
  rewrite Hh. unfold w1.
  destruct ev as [newOptions|orderBy desc| | |p'|id reply];
    unfold_handlers; simpl; try (repeat case_match; left; done).
  destruct (inflight w !! id) as [c|] eqn:Hid; [|by left].
  destruct c, reply as [[res|e]|[res|e]|[res|e]|[res|e]|[res|e]|[res|e]|te];
    simpl; try (by left).
  - right. right. by exists id, res.
  - destruct (truthy (data res)); by left.
Qed.

(** X15: at any moment [statements] is either empty or the whole payload
    of one successful statement-list reply that the controller received:
    rows of different replies are never merged, and nothing else writes
    rows. *)
Theorem statements_from_one_reply (p : Props) (storage : gmap string string)
    (evs : list Event) :
  statements (hook (run (useStatementTableController p storage) evs)) = [] \/
  exists id res,
    Settle id (ListReply (Fulfilled res)) ∈ evs /\
    statements (hook (run (useStatementTableController p storage) evs)) =
      data_or_empty res.
Proof.
  induction evs as [|ev evs IH] using rev_ind.
  - left. unfold run. simpl. unfold useStatementTableController.
    destruct (getStoredValue storage 0
                (default DEF_STMT_QUERY_OPTIONS (options p))) as [session n].
    match goal with |- context [exec run_effects ?f] => set (first := f) end.
    by rewrite (run_effects_first_hook first).
  - unfold run in *. rewrite foldl_app. simpl.
    set (w := foldl step (useStatementTableController p storage) evs) in *.
    destruct (step_statements w ev) as [-> | [-> | (id & res & -> & ->)]].
    + destruct IH as [IH | (id & res & Hin & IH)]; [by left|].
      right. exists id, res. split; [|done]. apply elem_of_app. by left.
    + by left.
    + right. exists id, res. split; [|done].
      apply elem_of_app. right. by apply list_elem_of_singleton.
Qed.

(** No handler sends a statement-list request itself: only the second
    effect does. *)
Lemma handle_list_calls (ev : Event) (w : World) :
  filter is_list_call (issued (exec (handle ev) w)) =
    filter is_list_call (issued w).
Proof.
  destruct ev; unfold_handlers; simpl; repeat (case_match; simpl);
    simplify_eq/=; rewrite ?filter_app, ?app_nil_r; done.
Qed.

(** X18: one turn sends at most one statement-list request, and the
    request carries the values of the state the turn ends in: the bounds
    of its valid time range, its selected fields and the filters of its
    query options. *)
Theorem list_request_is_current (w : World) (ev : Event) :
  filter is_list_call (issued (step w ev)) = filter is_list_call (issued w) \/
  filter is_list_call (issued (step w ev)) =
    filter is_list_call (issued w) ++
    [statementsListGet
       (begin_time (oval (validTimeRange (memo (step w ev)))))
       (end_time (oval (validTimeRange (memo (step w ev)))))
       (selectedFields (memo (step w ev)))
       (schemas (oval (queryOptions (step w ev))))
       (stmtTypes (oval (queryOptions (step w ev))))
       (searchText (oval (queryOptions (step w ev))))].
Proof.
  rewrite step_unfold. set (w1 := exec (handle ev) w).
  pose proof (render_frame w1) as (_ & _ & _ & _ & _ & _ & _ & Hi & _).
  set (w2 := exec render w1) in *.
  pose proof (run_effects_frame w2) as (_ & Hp & _ & _ & _ & _ & Hh & Hm).
  rewrite run_effects_list_calls, Hi.
  pose proof (handle_list_calls ev w) as Hl. fold w1 in Hl. rewrite Hl.
  case_decide; [left; by rewrite app_nil_r|].
  destruct (oval (allTimeRanges (hook w2))); [left; by rewrite app_nil_r|].
  right. f_equal. unfold list_request, queryOptions.
  rewrite Hm, Hp, Hh. done.
Qed.

(** ** What is kept *)

(** X19: a request in flight stays in flight until its own reply arrives:
    no other event, be it new query options, a refresh, or the reply to a
    newer request, cancels or replaces it. *)
Theorem request_never_cancelled (w : World) (ev : Event) (id : nat) (c : Call) :
  reachable w ->
  inflight w !! id = Some c ->
  (forall reply, ev <> Settle id reply) ->
  inflight (step w ev) !! id = Some c.
Proof.
  intros Hw%reachable_inflight_below Hid Hev.
  pose proof (Hw _ _ Hid) as Hlt.
  pose proof (handle_inflight ev w) as (Hn1 & _ & Hkeep).
  rewrite step_unfold. set (w1 := exec (handle ev) w) in *.
  pose proof (render_frame w1) as (_ & _ & _ & _ & _ & Hi & Hn & _).
  pose proof (run_effects_inflight (exec render w1)) as (_ & _ & Hsame & _).
  rewrite Hsame by (rewrite Hn; lia). rewrite Hi. unfold w1.
  destruct ev as [newOptions|orderBy desc| | |p'|id' reply];
    try (by apply Hkeep).
  unfold handle.
  destruct (settle_cases id' reply w) as [-> | (c' & _ & Hd & _)]; [done|].
  rewrite Hd. rewrite lookup_delete_ne; [done|].
  intros ->. by destruct (Hev reply).
Qed.


(** X16: over any sequence of events that holds no call of
    [setQueryOptions] and none of [changeOrder] (refreshes, exports, new
    arguments, replies) the session storage stays as it was: nothing in
    the hook but [setQueryOptions] writes it.  What [changeOrder] does to
    the storage happens inside [useOrderState] and is not covered. *)
Theorem storage_kept_by_other_events (w : World) (evs : list Event) :
  Forall (fun ev => may_write_storage ev = false) evs ->
  sessionStorage (run w evs) = sessionStorage w.
Proof.
  unfold run. revert w.
  induction evs as [|ev evs IH]; intros w Hevs; simpl; [done|].
  inversion Hevs as [|? ? Hev Hrest]; subst.
  rewrite IH by done. rewrite step_sessionStorage; by destruct ev.
Qed.

(** X17: a call of [refresh] keeps what is on display: the statements,
    the loading flag, the four metadata fields, the query options and the
    valid time range are as before; only the error list and the refresh
    counter change. *)
Theorem refresh_keeps_data (w : World) :
  reachable w ->
  statements (hook (step w CallRefresh)) = statements (hook w) /\
  loadingStatements (hook (step w CallRefresh)) = loadingStatements (hook w) /\
  metadata_fields (step w CallRefresh) = metadata_fields w /\
  queryOptions (step w CallRefresh) = queryOptions w /\
  validTimeRange (memo (step w CallRefresh)) = validTimeRange (memo w) /\
  refreshTimes (hook (step w CallRefresh)) = (refreshTimes (hook w) + 1)%N.
Proof.
  intros Hw%reachable_settled_render. open_settled w Hw.
  unfold metadata_fields, queryOptions. unfold_step. simpl.
  rewrite !decide_True by done. simpl.
  rewrite decide_False by (intros ?; simplify_eq; lia). simpl.
  rewrite decide_True by done. simpl. done.
Qed.

(** ** The option store in memory mode *)

(** X5: on a controller that does not persist its options,
    [setQueryOptions x] makes [x] the current options and leaves the
    session storage and the persisted cell as they were; a controller
    created afterwards without persistence starts from its own [options]
    argument, or from the default options, whatever the storage holds. *)
Theorem setQueryOptions_memory_only (w : World)
    (x : Obj IStatementQueryOptions) :
  needSave (props w) = false ->
  queryOptions (step w (CallSetQueryOptions x)) = x /\
  sessionStorage (step w (CallSetQueryOptions x)) = sessionStorage w /\
  sessionQueryOptions (hook (step w (CallSetQueryOptions x))) =
    sessionQueryOptions (hook w) /\
  forall p' storage,
    needSave p' = false ->
    queryOptions (useStatementTableController p' storage) =
      default DEF_STMT_QUERY_OPTIONS (options p').
Proof.
  intros Hsave. split_and!.
  - rewrite step_unfold.
    set (w1 := exec (handle (CallSetQueryOptions x)) w).
    pose proof (render_frame w1) as (_ & Hp & Hh & _).
    pose proof (run_effects_frame (exec render w1))
      as (_ & Hp' & _ & _ & _ & _ & Hh' & _).
    unfold queryOptions. rewrite Hp', Hh', Hp, Hh. simpl.
    unfold w1. unfold_handlers. simpl. rewrite Hsave. simpl. by rewrite Hsave.
  - rewrite step_sessionStorage by done. by rewrite Hsave.
  - rewrite step_unfold.
    set (w1 := exec (handle (CallSetQueryOptions x)) w).
    pose proof (render_frame w1) as (_ & _ & Hh & _).
    pose proof (run_effects_frame (exec render w1))
      as (_ & _ & _ & _ & _ & _ & Hh' & _).
    rewrite Hh', Hh. simpl.
    unfold w1. unfold_handlers. simpl. by rewrite Hsave.
  - intros p' storage Hsave'. unfold useStatementTableController.
    destruct (getStoredValue storage 0
                (default DEF_STMT_QUERY_OPTIONS (options p'))) as [session n].
    match goal with |- context [exec run_effects ?f] => set (first := f) end.
    pose proof (run_effects_frame first) as (_ & Hp' & _ & _ & _ & _ & Hh' & _).
    unfold queryOptions. rewrite Hp', Hh'. simpl. by rewrite Hsave'.
Qed.

(** ** Batched calls *)

Lemma handle_of_frame (c : World) (ev : Event) (w : World) :
  fst (handle_of c ev w) = Normal tt /\
  memo (exec (handle_of c ev) w) = memo w /\
  filter is_metadata_call (issued (exec (handle_of c ev) w)) =
    filter is_metadata_call (issued w) /\
  refreshTimes (hook (exec (handle_of c ev) w)) =
    (refreshTimes (hook w) + if is_refresh ev then 1 else 0)%N.
Proof.
  destruct ev as [newOptions|orderBy desc| | |p'|id reply].
  1, 4: unfold handle_of, setQueryOptions_of, downloadCSV_of; unfold_m; simpl;
    repeat case_match; simpl; rewrite ?filter_app, ?app_nil_r, ?N.add_0_r;
    done.
  all: match goal with
       | |- context [handle_of ?c0 ?e] =>
           change (handle_of c0 e) with (handle e);
           pose proof (handle_normal e w) as Hn;
           destruct (handle_frame e w) as (Hm & Hi & Hr)
       end;
    split_and!; [exact Hn|exact Hm|exact Hi|rewrite Hr; simpl; lia].
Qed.

Lemma handle_all_frame (c : World) (evs : list Event) (w : World) :
  fst (handle_all c evs w) = Normal tt /\
  memo (exec (handle_all c evs) w) = memo w /\
  filter is_metadata_call (issued (exec (handle_all c evs) w)) =
    filter is_metadata_call (issued w) /\
  refreshTimes (hook (exec (handle_all c evs) w)) =
    (refreshTimes (hook w) + N.of_nat (length (filter is_refresh evs)))%N.
Proof.
  revert w. induction evs as [|ev evs IH]; intros w.
  - simpl. unfold_m. simpl. split_and!; try done. lia.
  - pose proof (handle_of_frame c ev w) as (Hn & Hm & Hi & Hr).
    simpl. unfold exec, bind in *.
    destruct (handle_of c ev w) as [r w1]. simpl in *. subst r.
    destruct (IH w1) as (Hn' & Hm' & Hi' & Hr').
    rewrite Hn', Hm', Hi', Hr', Hm, Hi, Hr. split_and!; try done.
    rewrite filter_cons. destruct ev; simpl; lia.
Qed.

Lemma turn_unfold (w : World) (evs : list Event) :
  turn w evs = exec run_effects (exec render (exec (handle_all w evs) w)).
Proof.
  unfold turn, exec, bind.
  pose proof (handle_all_frame w evs w) as (Hh & _).
  destruct (handle_all w evs w) as [c w1]; simpl in *; subst c.
  pose proof (render_frame w1) as [Hr _].
  destruct (render w1) as [c w2]; simpl in *; subst c. done.
Qed.

Lemma settled_render_turn (w : World) (evs : list Event) :
  settled_render (turn w evs).
Proof.
  rewrite turn_unfold.
  set (w1 := exec (handle_all w evs) w).
  pose proof (render_frame w1) as (_ & Hp & Hh & _ & _ & _ & _ & _ & _ & _ & _ & Hv & Hs).
  set (w2 := exec render w1) in *.
  pose proof (run_effects_frame w2) as (_ & Hp' & _ & _ & _ & _ & Hh' & Hm').
  unfold settled_render, validTimeRange_now, metadataEffect_now,
    listEffect_now, queryOptions in *.
  rewrite Hm', Hp', Hh'. simpl.
  rewrite Hv, Hs, Hp, Hh. done.
Qed.

Lemma has_refresh_count (evs : list Event) :
  has_refresh evs = negb (length (filter is_refresh evs) =? 0)%nat.
Proof.
  unfold has_refresh. induction evs as [|ev evs IH]; [done|].
  rewrite filter_cons. destruct ev; simpl; done.
Qed.

(** One render after a batch sends the four metadata calls when the
    batch holds a call of [refresh], however many, and none otherwise. *)
Lemma turn_metadata_calls (w : World) (evs : list Event) :
  settled_render w ->
  filter is_metadata_call (issued (turn w evs)) =
    filter is_metadata_call (issued w) ++
    (if has_refresh evs then metadata_calls else []).
Proof.
  intros (_ & _ & Hm & _).
  rewrite turn_unfold, run_effects_metadata_calls.
  set (w1 := exec (handle_all w evs) w).
  pose proof (render_frame w1) as (_ & _ & Hh & _ & _ & _ & _ & Hi & _ & Hd & _).
  pose proof (handle_all_frame w evs w) as (_ & Hmemo & Hcalls & Hrt).
  fold w1 in Hmemo, Hcalls, Hrt.
  unfold metadataEffect_now in *.
  rewrite Hi, Hd, Hh, Hcalls, Hmemo, Hm, Hrt. f_equal.
  rewrite has_refresh_count.
  destruct (length (filter is_refresh evs)) as [|n]; simpl.
  - rewrite decide_True; [done|]. f_equal. lia.
  - rewrite decide_False; [done|]. intros [= Heq]. lia.
Qed.

(** C4, as the code has it: over any sequence of renders, each after a
    batch of events, the four metadata calls are sent once when the
    controller is created and once more for each render before which
    [refresh] was called, once or several times; no other event, a change
    of the query options or of the visible columns included, sends them:
    the only dependency of the effect that sends them is the refresh
    counter. *)
Theorem metadata_fetched_once_per_refreshing_render (p : Props)
    (storage : gmap string string) (batches : list (list Event)) :
  filter is_metadata_call
    (issued (run_turns (useStatementTableController p storage) batches)) =
  concat (replicate (1 + length (filter has_refresh batches)) metadata_calls).
Proof.
  assert (Hrun : forall w,
    settled_render w ->
    filter is_metadata_call (issued (run_turns w batches)) =
      filter is_metadata_call (issued w) ++
      concat (replicate (length (filter has_refresh batches)) metadata_calls)).
  { unfold run_turns.
    induction batches as [|evs batches IH]; intros w Hw; simpl.
    - by rewrite app_nil_r.
    - rewrite IH by apply settled_render_turn.
      rewrite turn_metadata_calls by done. rewrite <- app_assoc. f_equal.
      rewrite filter_cons. destruct (has_refresh evs); simpl; done. }
  rewrite Hrun by apply settled_render_mount.
  by rewrite mount_metadata_calls.
Qed.

End Properties.

(** * The theorems at work on the concrete collaborators *)

Import Demo.

Lemma queryStatementList_no_time_ranges_witness :
  oval (allTimeRanges (hook Demo.world0)) = [] /\
  statements (hook (exec queryStatementList Demo.world0)) = [] /\
  loadingStatements (hook (exec queryStatementList Demo.world0)) = false /\
  issued (exec queryStatementList Demo.world0) = issued Demo.world0.
Proof.
  split; [reflexivity|].
  pose proof (queryStatementList_no_time_ranges Demo.world0 eq_refl)
    as (_ & Hs & Hl & Hi & _).
  exact (conj Hs (conj Hl Hi)).
Defined.

(** C3 as the spec words it fails: a controller that has just been
    created has its enable flag set to [true], neither false nor unset. *)
Lemma metadata_created_empty_counterexample :
  ~ (allSchemas (hook Demo.world0) = [] /\
     oval (allTimeRanges (hook Demo.world0)) = [] /\
     allStmtTypes (hook Demo.world0) = [] /\
     (enable (hook Demo.world0) = Some false \/
      enable (hook Demo.world0) = None)).
Proof.
  intros (_ & _ & _ & [Henable | Henable]); vm_compute in Henable;
    discriminate.
Qed.

Lemma refresh_clears_errors_first_witness :
  reachable Demo.world1 /\
  errors (hook Demo.world1) = ["boom"] /\
  errors (hook (step Demo.world1 CallRefresh)) = [].
Proof.
  assert (Hreach : reachable Demo.world1).
  { apply reachable_step, reachable_mount. }
  split; [exact Hreach|]. split; [vm_compute; reflexivity|].
  exact (proj1 (proj2 (refresh_clears_errors_first Demo.world1 Hreach))).
Defined.

Lemma metadata_failure_isolated_witness :
  reachable Demo.world0 /\
  inflight Demo.world0 !! 1 = Some (metadata_call MSchemas) /\
  errors (hook (step Demo.world0 (Settle 1 (metadata_rejected MSchemas "boom")))) =
    errors (hook Demo.world0) ++ ["boom"] /\
  metadata_fields (step Demo.world0 (Settle 1 (metadata_rejected MSchemas "boom"))) =
    metadata_fields Demo.world0.
Proof.
  assert (Hreach : reachable Demo.world0) by apply reachable_mount.
  assert (Hin : inflight Demo.world0 !! 1 = Some (metadata_call MSchemas))
    by (vm_compute; reflexivity).
  split; [exact Hreach|]. split; [exact Hin|].
  pose proof (metadata_failure_isolated Demo.world0 MSchemas 1 "boom" Hreach Hin)
    as (He & Hf & _).
  exact (conj He Hf).
Defined.


Lemma downloadCSV_resume_no_token_witness :
  navigations
    (exec (downloadCSV_resume (Fulfilled {| data := Some "" |})) Demo.world0) =
    navigations Demo.world0 /\
  downloading
    (hook (exec (downloadCSV_resume (Fulfilled {| data := Some "" |}))
             Demo.world0)) = false.
Proof.
  pose proof (downloadCSV_resume_no_token Demo.world0 {| data := Some "" |}
                (or_intror eq_refl)) as (_ & Hn & _ & Hd).
  exact (conj Hn Hd).
Defined.

(** ** The further properties at work *)

Lemma reachable_world2 : reachable Demo.world2.
Proof. apply reachable_step, reachable_mount. Qed.

Lemma reachable_world3 : reachable Demo.world3.
Proof. apply reachable_step, reachable_world2. Qed.

Lemma reachable_world4 : reachable Demo.world4.
Proof. apply reachable_step, reachable_world2. Qed.

Lemma quiet_events_never_refetch_witness :
  reachable Demo.world2 /\
  never_refetches CallRefresh = true /\
  filter is_list_call (issued (step Demo.world2 CallRefresh)) =
    filter is_list_call (issued Demo.world2).
Proof.
  split; [exact reachable_world2|]. split; [reflexivity|].
  exact (proj1 (quiet_events_never_refetch Demo.world2 CallRefresh
                  reachable_world2 eq_refl)).
Defined.

Lemma last_list_reply_wins_witness :
  reachable Demo.world3 /\
  inflight Demo.world3 !! 4 = Some Demo.call4 /\
  inflight Demo.world3 !! 5 = Some Demo.call5 /\
  statements
    (hook (step (step Demo.world3
                   (Settle 5 (ListReply (Fulfilled (Some {| data := Some ["new"] |})))))
             (Settle 4 (ListReply (Fulfilled (Some {| data := Some ["old"] |})))))) =
    ["old"].
Proof.
  assert (H4 : inflight Demo.world3 !! 4 = Some Demo.call4)
    by (vm_compute; reflexivity).
  assert (H5 : inflight Demo.world3 !! 5 = Some Demo.call5)
    by (vm_compute; reflexivity).
  split; [exact reachable_world3|]. split; [exact H4|]. split; [exact H5|].
  exact (proj2 (proj2 (last_list_reply_wins Demo.world3 5 4 Demo.call5 Demo.call4
                         (Fulfilled (Some {| data := Some ["new"] |}))
                         (Fulfilled (Some {| data := Some ["old"] |}))
                         reachable_world3 ltac:(lia) H5 eq_refl H4 eq_refl))).
Defined.

Lemma setQueryOptions_memory_only_witness :
  needSave (props Demo.world_memory) = false /\
  queryOptions (step Demo.world_memory (CallSetQueryOptions Demo.options1)) =
    Demo.options1 /\
  sessionStorage (step Demo.world_memory (CallSetQueryOptions Demo.options1)) =
    sessionStorage Demo.world_memory.
Proof.
  split; [reflexivity|].
  pose proof (setQueryOptions_memory_only Demo.world_memory Demo.options1 eq_refl)
    as (Hq & Hs & _).
  exact (conj Hq Hs).
Defined.

Lemma time_ranges_arrive_witness :
  reachable Demo.world0 /\
  inflight Demo.world0 !! 2 = Some statementsTimeRangesGet /\
  oval (allTimeRanges (hook (step Demo.world0
          (Settle 2 (TimeRangesReply (Fulfilled None)))))) = [].
Proof.
  assert (Hin : inflight Demo.world0 !! 2 = Some statementsTimeRangesGet)
    by (vm_compute; reflexivity).
  split; [apply reachable_mount|]. split; [exact Hin|].
  exact (proj1 (time_ranges_arrive Demo.world0 2 None
                  (reachable_mount Demo.props0 ∅) Hin)).
Defined.

Lemma options1_is_new :
  oref Demo.options1 <> oref (queryOptions Demo.world2).
Proof. intros Heq. vm_compute in Heq. discriminate. Defined.

Lemma setQueryOptions_refetches_witness :
  reachable Demo.world2 /\
  oref Demo.options1 <> oref (queryOptions Demo.world2) /\
  queryOptions (turn Demo.world2 [CallSetQueryOptions Demo.options1]) =
    Demo.options1.
Proof.
  split; [exact reachable_world2|]. split; [exact options1_is_new|].
  exact (proj1 (setQueryOptions_refetches Demo.world2 Demo.options1
                  reachable_world2 options1_is_new)).
Defined.

Lemma setQueryOptions_same_object_witness :
  reachable Demo.world2 /\
  issued (step Demo.world2 (CallSetQueryOptions (queryOptions Demo.world2))) =
    issued Demo.world2.
Proof.
  split; [exact reachable_world2|].
  exact (proj1 (setQueryOptions_same_object Demo.world2 reachable_world2)).
Defined.

Lemma rerender_same_fields_witness :
  reachable Demo.world2 /\
  needSave Demo.props1 = needSave (props Demo.world2) /\
  String.concat "," (getSelectedFields (oval (visibleColumnKeys Demo.props1))) =
    selectedFields (memo Demo.world2) /\
  issued (step Demo.world2 (Rerender Demo.props1)) = issued Demo.world2.
Proof.
  assert (Hf : String.concat ","
                 (getSelectedFields (oval (visibleColumnKeys Demo.props1))) =
               selectedFields (memo Demo.world2)) by (vm_compute; reflexivity).
  split; [exact reachable_world2|]. split; [reflexivity|]. split; [exact Hf|].
  exact (proj1 (rerender_same_fields Demo.world2 Demo.props1
                  reachable_world2 eq_refl Hf)).
Defined.

Lemma props2_other_object :
  oref (visibleColumnKeys Demo.props2) <>
    oref (visibleColumnKeys (props Demo.world2)).
Proof. intros Heq. vm_compute in Heq. discriminate. Defined.

Lemma props2_other_fields :
  String.concat "," (getSelectedFields (oval (visibleColumnKeys Demo.props2))) <>
    selectedFields (memo Demo.world2).
Proof. intros Heq. vm_compute in Heq. discriminate. Defined.

Lemma rerender_other_fields_witness :
  reachable Demo.world2 /\
  needSave Demo.props2 = needSave (props Demo.world2) /\
  selectedFields (memo (step Demo.world2 (Rerender Demo.props2))) =
    String.concat "," (getSelectedFields (oval (visibleColumnKeys Demo.props2))).
Proof.
  split; [exact reachable_world2|]. split; [reflexivity|].
  exact (proj1 (rerender_other_fields Demo.world2 Demo.props2
                  reachable_world2 eq_refl props2_other_object
                  props2_other_fields)).
Defined.

Lemma downloadCSV_call_witness :
  reachable Demo.world2 /\
  downloading (hook (step Demo.world2 CallDownloadCSV)) = true.
Proof.
  split; [exact reachable_world2|].
  exact (proj1 (downloadCSV_call Demo.world2 reachable_world2)).
Defined.

Lemma download_navigates_witness :
  inflight Demo.world4 !! 5 = Some (statementsDownloadTokenPost Demo.req5) /\
  "tok" <> "" /\
  navigations
    (step Demo.world4
       (Settle 5 (TokenReply (Fulfilled {| data := Some "tok" |})))) =
    navigations Demo.world4 ++
    ["/dashboard/api/statements/download?token=tok"].
Proof.
  assert (Hin : inflight Demo.world4 !! 5 =
                  Some (statementsDownloadTokenPost Demo.req5))
    by (vm_compute; reflexivity).
  assert (Htok : "tok" <> "") by discriminate.
  split; [exact Hin|]. split; [exact Htok|].
  exact (proj1 (download_navigates Demo.world4 5 Demo.req5 "tok" Hin Htok)).
Defined.

Lemma loading_has_request_witness :
  reachable Demo.world2 /\
  loadingStatements (hook Demo.world2) = true /\
  exists id c, inflight Demo.world2 !! id = Some c /\ is_list_call c = true.
Proof.
  assert (Hl : loadingStatements (hook Demo.world2) = true)
    by (vm_compute; reflexivity).
  split; [exact reachable_world2|]. split; [exact Hl|].
  exact (loading_has_request Demo.world2 reachable_world2 Hl).
Defined.

Lemma downloading_has_request_witness :
  reachable Demo.world4 /\
  downloading (hook Demo.world4) = true /\
  exists id c, inflight Demo.world4 !! id = Some c /\ is_token_call c = true.
Proof.
  assert (Hd : downloading (hook Demo.world4) = true)
    by (vm_compute; reflexivity).
  split; [exact reachable_world4|]. split; [exact Hd|].
  exact (downloading_has_request Demo.world4 reachable_world4 Hd).
Defined.

Lemma storage_kept_by_other_events_witness :
  Forall (fun ev => may_write_storage ev = false)
    [CallRefresh; CallDownloadCSV; Rerender Demo.props2] /\
  sessionStorage
    (run Demo.world3 [CallRefresh; CallDownloadCSV; Rerender Demo.props2]) =
    sessionStorage Demo.world3.
Proof.
  assert (Hevs : Forall (fun ev => may_write_storage ev = false)
                   [CallRefresh; CallDownloadCSV; Rerender Demo.props2])
    by (repeat constructor).
  split; [exact Hevs|].
  exact (storage_kept_by_other_events Demo.world3 _ Hevs).
Defined.

Lemma refresh_keeps_data_witness :
  reachable Demo.world2 /\
  statements (hook (step Demo.world2 CallRefresh)) =
    statements (hook Demo.world2) /\
  loadingStatements (hook (step Demo.world2 CallRefresh)) =
    loadingStatements (hook Demo.world2).
Proof.
  split; [exact reachable_world2|].
  pose proof (refresh_keeps_data Demo.world2 reachable_world2) as (Hs & Hl & _).
  exact (conj Hs Hl).
Defined.

Lemma request_never_cancelled_witness :
  reachable Demo.world2 /\
  inflight Demo.world2 !! 4 = Some Demo.call4 /\
  inflight (step Demo.world2 (CallSetQueryOptions Demo.options1)) !! 4 =
    Some Demo.call4.
Proof.
  assert (Hin : inflight Demo.world2 !! 4 = Some Demo.call4)
    by (vm_compute; reflexivity).
  split; [exact reachable_world2|]. split; [exact Hin|].
  exact (request_never_cancelled Demo.world2 (CallSetQueryOptions Demo.options1)
           4 Demo.call4 reachable_world2 Hin ltac:(done)).
Defined.

(** ** Where the spec's wording fails *)

(** C4 as the spec words it fails: after two calls of [refresh] that one
    render follows, the four metadata calls have been sent twice in all,
    once at creation and once by that render, and not three times, once
    per invocation. *)
Lemma metadata_per_invocation_counterexample :
  filter is_metadata_call
    (issued (run_turns Demo.world0 [[CallRefresh; CallRefresh]])) =
    concat (replicate 2 metadata_calls) /\
  filter is_metadata_call
    (issued (run_turns Demo.world0 [[CallRefresh; CallRefresh]])) <>
    concat (replicate (1 + 2) metadata_calls).
Proof.
  assert (Hcalls : filter is_metadata_call
            (issued (run_turns Demo.world0 [[CallRefresh; CallRefresh]])) =
          concat (replicate 2 metadata_calls)) by (vm_compute; reflexivity).
  split; [exact Hcalls|]. rewrite Hcalls. discriminate.
Qed.

